(** * Ticket assignment core: priority analysis, skill matching, allocation

    A shallow embedding of [priority_analyzer.py] and
    [ticket_assignment_system.py], followed by the properties of the
    assignment core.

    Conventions of the embedding.
    - Python [float] arithmetic is rendered as exact arithmetic on [Q]; the
      decimal literals of the source are kept as written ([10.0], [0.25]).
      Where the source compares floats with [==] the model uses [Qeq_bool],
      and theorems state equalities of scores up to [==].
    - Python [int] values are [Z]; an [int] used in a float expression is
      injected with [inject_Z].
    - Python [str] values are [string]; [str.lower] and the regular
      expression class [\w] are modelled on ASCII text.
    - A [dict] that the code iterates over is an association list in
      insertion order; the per-run workload [dict] is a [gmap string Z].
    - The only exception the core can raise on well-formed records is the
      [KeyError] of a subscript on the workload [dict]; it is explicit in
      the type [outcome]. *)

From Stdlib Require Import Ascii String QArith Qminmax Lqa Sorted Permutation.
From stdpp Require Import gmap strings list pretty relations.

(** Lists are the standard library's; [filter] on them is [List.filter]. *)

Open Scope Q_scope.

(** Float comparisons [x > y] and [x < y] as booleans. *)
Definition Qgt_bool (x y : Q) : bool := negb (Qle_bool x y).
Definition Qlt_bool (x y : Q) : bool := negb (Qle_bool y x).

(** [sum] of a list of floats, for the statements. *)
Definition Qsum (l : list Q) : Q := fold_right Qplus 0 l.

(** ** Text: [str.lower] and whole-word search *)

Module Text.

(** [c.lower()] for an ASCII character. *)
Definition lower_char (c : ascii) : ascii :=
  let n := N_of_ascii c in
  if ((65 <=? n) && (n <=? 90))%N then ascii_of_N (n + 32) else c.

(** [s.lower()]. *)
Fixpoint lower (s : string) : string :=
  match s with
  | EmptyString => EmptyString
  | String c s' => String (lower_char c) (lower s')
  end.

(** The class [\w]: letters, digits and the underscore. *)
Definition is_word_char (c : ascii) : bool :=
  let n := N_of_ascii c in
  (((48 <=? n) && (n <=? 57)) || ((65 <=? n) && (n <=? 90))
   || ((97 <=? n) && (n <=? 122)) || (n =? 95))%N.

Definition is_word (c : option ascii) : bool :=
  match c with
  | Some a => is_word_char a
  | None => false
  end.

(** [\b] between two neighbouring positions; [None] is the start or the
    end of the text. *)
Definition word_boundary (before after : option ascii) : bool :=
  xorb (is_word before) (is_word after).

Definition first_char (s : string) : option ascii :=
  match s with
  | EmptyString => None
  | String c _ => Some c
  end.

(** Consume the literal [kw] (the pattern [re.escape(kw)]) at the front of
    [text]; the result is the last character consumed and the rest of the
    text. *)
Fixpoint match_literal (kw text : string) (prev : option ascii)
  : option (option ascii * string) :=
  match kw with
  | EmptyString => Some (prev, text)
  | String k kw' =>
      match text with
      | EmptyString => None
      | String c text' =>
          if Ascii.eqb k c then match_literal kw' text' (Some c) else None
      end
  end.

(** The pattern [\b kw \b] anchored at the current position. *)
Definition match_here (kw : string) (prev : option ascii) (text : string)
  : bool :=
  word_boundary prev (first_char text)
  && match match_literal kw text prev with
     | Some (last, rest) => word_boundary last (first_char rest)
     | None => false
     end.

(** [re.search] tries every start position from the left; [prev] is the
    character before the current position. *)
Fixpoint search_from (kw : string) (prev : option ascii) (text : string)
  : bool :=
  match_here kw prev text
  || match text with
     | EmptyString => false
     | String c text' => search_from kw (Some c) text'
     end.

(** [bool(re.search(r'\b' + re.escape(kw) + r'\b', text))]. *)
Definition re_search_word (kw text : string) : bool :=
  search_from kw None text.

End Text.

(** ** [priority_analyzer.py] *)

(** [class PriorityLevel(Enum)]. *)
Inductive PriorityLevel := CRITICAL | HIGH | MEDIUM | LOW.

(** [level.value]. *)
Definition level_value (l : PriorityLevel) : Z :=
  match l with
  | CRITICAL => 1
  | HIGH => 2
  | MEDIUM => 3
  | LOW => 4
  end.

(** [level.name]. *)
Definition level_name (l : PriorityLevel) : string :=
  match l with
  | CRITICAL => "CRITICAL"
  | HIGH => "HIGH"
  | MEDIUM => "MEDIUM"
  | LOW => "LOW"
  end.

(** Iteration order of [for level in PriorityLevel]. *)
Definition all_levels : list PriorityLevel := [CRITICAL; HIGH; MEDIUM; LOW].

Definition level_eqb (a b : PriorityLevel) : bool :=
  (level_value a =? level_value b)%Z.

Module PriorityAnalyzer.

(** [@dataclass PriorityResult]. The [rationale] text is left out: it
    renders floats with [format] and nothing in the assignment core reads
    it. *)
Record PriorityResult := {
  priority_level : PriorityLevel;
  priority_score : Q;
  matched_keywords : list string
}.

Definition critical_keywords : list (string * Q) :=
  [("down", 10.0); ("outage", 10.0); ("crashed", 9.0); ("unreachable", 8.0);
   ("offline", 8.0); ("not responding", 8.0); ("completely broken", 9.0);
   ("total failure", 10.0); ("system failure", 9.0);
   ("service unavailable", 9.0); ("cannot access", 7.0);
   ("all users affected", 8.0); ("widespread", 7.0);
   ("business critical", 9.0); ("production down", 10.0);
   ("emergency", 10.0); ("urgent", 8.0); ("immediately", 8.0);
   ("critical", 9.0); ("severe", 8.0); ("catastrophic", 10.0);
   ("security breach", 10.0); ("hacked", 10.0); ("malware", 9.0);
   ("virus", 8.0); ("data breach", 10.0); ("unauthorized access", 9.0);
   ("compromised", 9.0); ("server down", 9.0); ("network down", 9.0);
   ("database down", 10.0); ("backup failed", 8.0); ("corruption", 8.0);
   ("data loss", 9.0)].

Definition high_keywords : list (string * Q) :=
  [("broken", 6.0); ("failing", 6.0); ("error", 5.0); ("problems", 4.0);
   ("issues", 4.0); ("not working", 6.0); ("malfunctioning", 6.0);
   ("stuck", 5.0); ("frozen", 6.0); ("slow", 4.0); ("performance", 4.0);
   ("timeout", 5.0); ("intermittent", 5.0); ("frequent", 5.0);
   ("multiple users", 5.0); ("department affected", 6.0);
   ("productivity impact", 6.0); ("blocking", 6.0); ("prevents work", 6.0);
   ("deadline", 7.0); ("presentation", 6.0); ("meeting", 5.0);
   ("client", 6.0); ("customer", 6.0); ("important", 5.0); ("asap", 6.0);
   ("soon", 4.0); ("today", 5.0); ("tomorrow", 6.0); ("cannot login", 6.0);
   ("access denied", 6.0); ("locked out", 6.0); ("authentication", 5.0);
   ("permissions", 4.0); ("hardware failure", 7.0); ("hardware", 4.0);
   ("device", 3.0); ("laptop", 3.0); ("printer", 3.0)].

Definition medium_keywords : list (string * Q) :=
  [("help", 2.0); ("assistance", 2.0); ("support", 2.0); ("question", 2.0);
   ("how to", 2.0); ("configure", 2.0); ("setup", 2.0); ("install", 2.0);
   ("update", 2.0); ("upgrade", 2.0); ("request", 2.0); ("need", 2.0);
   ("would like", 2.0); ("minor", 1.0); ("small", 1.0); ("quick", 2.0);
   ("whenever convenient", 1.0); ("next week", 1.0); ("training", 2.0);
   ("documentation", 2.0); ("clarification", 2.0); ("guidance", 2.0);
   ("maintenance", 2.0); ("routine", 1.0); ("scheduled", 1.0);
   ("planned", 1.0)].

Definition low_keywords : list (string * Q) :=
  [("enhancement", 1.0); ("feature request", 1.0); ("improvement", 1.0);
   ("suggestion", 1.0); ("optimization", 1.0); ("nice to have", 0.5);
   ("when possible", 0.5); ("future", 0.5); ("eventually", 0.5);
   ("cosmetic", 0.5); ("aesthetic", 0.5); ("convenience", 1.0);
   ("preference", 0.5); ("general", 1.0); ("information", 1.0);
   ("inquiry", 1.0); ("feedback", 1.0)].

(** [_initialize_keywords]: one weighted table per level, in the order of
    the dictionary literal. *)
Definition urgency_keywords : list (PriorityLevel * list (string * Q)) :=
  [(CRITICAL, critical_keywords); (HIGH, high_keywords);
   (MEDIUM, medium_keywords); (LOW, low_keywords)].

(** [_initialize_impact_multipliers]. *)
Definition impact_multipliers : list (string * Q) :=
  [("all users", 2.0); ("entire", 2.0); ("whole", 2.0); ("company", 2.0);
   ("organization", 2.0); ("everyone", 2.0); ("multiple departments", 1.8);
   ("department", 1.5); ("team", 1.3); ("group", 1.3);
   ("several users", 1.4); ("many users", 1.4); ("revenue", 2.5);
   ("business", 2.0); ("production", 2.5); ("customer", 2.0);
   ("client", 2.0); ("public", 2.0); ("external", 1.8); ("reputation", 2.0);
   ("brand", 2.0); ("compliance", 2.2); ("audit", 2.0); ("legal", 2.2);
   ("regulatory", 2.2); ("now", 1.8); ("immediately", 2.0); ("asap", 1.8);
   ("urgent", 1.8); ("today", 1.5); ("this morning", 1.6);
   ("right now", 2.0); ("before", 1.5); ("deadline", 1.8); ("meeting", 1.4);
   ("presentation", 1.6); ("demo", 1.5); ("again", 1.3); ("repeatedly", 1.5);
   ("frequently", 1.4); ("constantly", 1.6); ("always", 1.4);
   ("continuous", 1.5); ("ongoing", 1.4); ("persistent", 1.4)].

(** [_find_keyword_in_text]. *)
Definition _find_keyword_in_text (keyword text : string) : bool :=
  Text.re_search_word (Text.lower keyword) (Text.lower text).

(** [f"{title} {description}".lower()]. *)
Definition full_text (title description : string) : string :=
  Text.lower (title +:+ " " +:+ description).

(** The [dict] from level to float that the analysis keeps: every level
    is a key, so it is a total map. *)
Definition scores := PriorityLevel -> Q.

Definition set_score (s : scores) (l : PriorityLevel) (v : Q) : scores :=
  fun l' => if level_eqb l l' then v else s l'.

(** State of the keyword loop: [priority_scores] and
    [matched_keywords]. *)
Definition scan_state : Type := scores * list string.

(** Body of the inner loop of [analyze_priority]. *)
Definition scan_keyword (text : string) (level : PriorityLevel)
    (st : scan_state) (entry : string * Q) : scan_state :=
  let '(keyword, weight) := entry in
  if _find_keyword_in_text keyword text
  then (set_score (fst st) level (fst st level + weight),
        snd st ++ [keyword])
  else st.

(** Body of the outer loop. *)
Definition scan_level (text : string) (st : scan_state)
    (entry : PriorityLevel * list (string * Q)) : scan_state :=
  fold_left (scan_keyword text (fst entry)) (snd entry) st.

Definition scan_all (text : string) : scan_state :=
  fold_left (scan_level text) urgency_keywords (fun _ => 0.0, []).

(** [priority_scores] after the keyword loop. *)
Definition priority_scores (text : string) : scores := fst (scan_all text).

(** Body of the impact loop:
    [impact_multiplier = max(impact_multiplier, multiplier)]. *)
Definition impact_step (text : string) (acc : Q) (entry : string * Q) : Q :=
  if _find_keyword_in_text (fst entry) text then Qmax acc (snd entry)
  else acc.

Definition impact_multiplier (text : string) : Q :=
  fold_left (impact_step text) impact_multipliers 1.0.

(** [final_scores]. *)
Definition final_scores (text : string) : scores :=
  fun level => priority_scores text level * impact_multiplier text.

(** [max(scores.values())]: the values are visited in the order of the
    keys, starting from the first one. *)
Definition max_score (s : scores) : Q :=
  fold_left Qmax (map s [HIGH; MEDIUM; LOW]) (s CRITICAL).

(** [_determine_winning_priority]. *)
Definition _determine_winning_priority (s : scores) : PriorityLevel :=
  let m := max_score s in
  if Qeq_bool m 0 then MEDIUM
  else
    match find (fun l => Qeq_bool (s l) m) all_levels with
    | Some l => l
    | None => MEDIUM
    end.

(** [analyze_priority]. *)
Definition analyze_priority (title description : string) : PriorityResult :=
  let text := full_text title description in
  let final := final_scores text in
  let winning_priority := _determine_winning_priority final in
  {| priority_level := winning_priority;
     priority_score := final winning_priority;
     matched_keywords := snd (scan_all text) |}.

End PriorityAnalyzer.

(** ** [ticket_assignment_system.py] *)

Module TicketAssignmentSystem.

(** An agent record of the dataset: a [dict] with these keys. *)
Record Agent := {
  agent_id : string;
  name : string;
  skills : list (string * Z);
  availability_status : string;
  experience_level : Z;
  current_load : Z
}.

(** A ticket record of the dataset. *)
Record Ticket := {
  ticket_id : string;
  title : string;
  description : string;
  creation_timestamp : Z
}.

(** The [dataset] argument of [assign_tickets]. *)
Record Dataset := {
  agents : list Agent;
  tickets : list Ticket
}.

(** [@dataclass AgentAssignment]. *)
Record AgentAssignment := {
  assigned_ticket_id : string;
  assigned_agent_id : string;
  rationale : string;
  priority_level : string;
  priority_score : Q;
  skill_match_score : Q;
  workload_factor : Q;
  final_score : Q
}.

(** Exceptions and the result of a call that may raise. *)
Inductive PyError := KeyError (key : string).

Inductive outcome (A : Type) :=
| Returns (a : A)
| Raises (e : PyError).

Arguments Returns {A} a.
Arguments Raises {A} e.

(** [_initialize_skill_keywords]. *)
Definition skill_keywords : list (string * list string) :=
  [
   ("Networking",
     ["vpn"; "network"; "networking"; "router"; "switch"; "firewall"; "dns";
      "dhcp"; "tcp"; "ip"; "subnet"; "vlan"; "wifi"; "wireless";
      "connection"; "connectivity"; "ping"; "traceroute"; "bandwidth"]);
   ("Linux_Administration",
     ["linux"; "ubuntu"; "centos"; "redhat"; "bash"; "shell"; "terminal";
      "ssh"; "sudo"; "chmod"; "chown"; "cron"; "systemd"; "apache"; "nginx";
      "mysql"; "postgresql"; "server"; "unix"]);
   ("Cloud_AWS",
     ["aws"; "amazon"; "ec2"; "s3"; "cloudformation"; "lambda"; "rds"; "vpc";
      "cloudwatch"; "iam"; "route53"; "elb"; "auto scaling"; "azure";
      "cloud"; "hosting"]);
   ("VPN_Troubleshooting",
     ["vpn"; "tunnel"; "ipsec"; "l2tp"; "pptp"; "openvpn"; "remote access";
      "site-to-site"; "authentication"; "concentrator"; "client"; "endpoint"]);
   ("Hardware_Diagnostics",
     ["hardware"; "diagnostic"; "memory"; "ram"; "cpu"; "disk"; "ssd"; "hdd";
      "motherboard"; "power supply"; "fan"; "temperature"; "bios"; "uefi";
      "boot"; "POST"]);
   ("Windows_Server_2022",
     ["windows server"; "server 2022"; "server 2019"; "server 2016"; "iis";
      "hyper-v"; "powershell"; "registry"; "event viewer"; "services";
      "roles"; "features"]);
   ("Active_Directory",
     ["active directory"; "ad"; "domain controller"; "dc"; "group policy";
      "gpo"; "ldap"; "kerberos"; "ntlm"; "forest"; "domain"; "ou";
      "user account"; "computer account"]);
   ("Virtualization_VMware",
     ["vmware"; "vsphere"; "vcenter"; "esxi"; "virtual machine"; "vm";
      "hypervisor"; "virtualization"; "snapshot"; "vmotion"; "ha"; "drs"]);
   ("Software_Licensing",
     ["license"; "licensing"; "activation"; "key"; "volume licensing"; "cal";
      "subscription"; "office 365"; "microsoft 365"]);
   ("Network_Security",
     ["security"; "firewall"; "intrusion"; "malware"; "antivirus"; "threat";
      "vulnerability"; "patch"; "encryption"; "certificate"; "ssl"; "tls"]);
   ("Database_SQL",
     ["database"; "sql"; "mysql"; "postgresql"; "oracle"; "sql server";
      "query"; "table"; "index"; "backup"; "restore"; "replication"]);
   ("Firewall_Configuration",
     ["firewall"; "iptables"; "pfsense"; "checkpoint"; "fortigate";
      "cisco asa"; "rules"; "acl"; "port"; "protocol"; "block"; "allow"]);
   ("Identity_Management",
     ["identity"; "sso"; "saml"; "oauth"; "ldap"; "authentication";
      "authorization"; "mfa"; "2fa"; "identity provider"; "federation"]);
   ("SaaS_Integrations",
     ["saas"; "integration"; "api"; "webhook"; "connector"; "salesforce";
      "servicenow"; "slack"; "teams"; "sharepoint"; "onedrive"]);
   ("Microsoft_365",
     ["microsoft 365"; "office 365"; "outlook"; "word"; "excel";
      "powerpoint"; "teams"; "sharepoint"; "onedrive"; "exchange"; "azure ad"]);
   ("SharePoint_Online",
     ["sharepoint"; "sharepoint online"; "site collection";
      "document library"; "list"; "workflow"; "permissions"; "search";
      "content type"]);
   ("PowerShell_Scripting",
     ["powershell"; "script"; "cmdlet"; "pipeline"; "automation"; "dsc";
      "remoting"; "ise"; "gallery"; "module"]);
   ("Laptop_Repair",
     ["laptop"; "notebook"; "screen"; "keyboard"; "touchpad"; "battery";
      "charger"; "adapter"; "hinge"; "repair"]);
   ("Printer_Support",
     ["printer"; "printing"; "toner"; "ink"; "paper jam"; "queue"; "driver";
      "spooler"; "network printer"])
  ].

(** [d.get(key, default)] on an association list. *)
Fixpoint dict_get {V : Type} (d : list (string * V)) (key : string)
    (default : V) : V :=
  match d with
  | [] => default
  | (k, v) :: d' => if String.eqb k key then v else dict_get d' key default
  end.

(** The [full_text] of [_calculate_skill_match]. *)
Definition skill_text (ticket : Ticket) : string :=
  Text.lower (title ticket) +:+ " " +:+ Text.lower (description ticket).

(** Inner loop of [_calculate_skill_match]: the number of keywords of one
    skill found in the text. *)
Definition count_keyword_matches (full_text : string)
    (keywords : list string) : Z :=
  fold_left
    (fun keyword_matches keyword =>
       if Text.re_search_word (Text.lower keyword) full_text
       then (keyword_matches + 1)%Z else keyword_matches)
    keywords 0%Z.

(** Body of the outer loop; the state is [(total_score, matched_skills)]. *)
Definition skill_step (full_text : string) (st : Q * Z)
    (entry : string * Z) : Q * Z :=
  let '(skill_name, skill_level) := entry in
  let keywords := dict_get skill_keywords skill_name [] in
  let keyword_matches := count_keyword_matches full_text keywords in
  if (keyword_matches >? 0)%Z then
    let skill_score :=
      (inject_Z skill_level / 10) * Qmin (inject_Z keyword_matches / 3) 1.0 in
    (fst st + skill_score, (snd st + 1)%Z)
  else st.

(** [_calculate_skill_match]. *)
Definition _calculate_skill_match (ticket : Ticket) (agent : Agent) : Q :=
  let full_text := skill_text ticket in
  let '(total_score, matched_skills) :=
    fold_left (skill_step full_text) (skills agent) (0, 0%Z) in
  if (matched_skills =? 0)%Z then 0.0
  else Qmin (total_score / inject_Z matched_skills) 1.0.

(** [_get_priority_multiplier]. *)
Definition _get_priority_multiplier (l : PriorityLevel) : Q :=
  match l with
  | CRITICAL => 1.0
  | HIGH => 0.8
  | MEDIUM => 0.6
  | LOW => 0.4
  end.

(** [" ".join(parts)]. *)
Definition join_words (parts : list string) : string :=
  String.concat " " parts.

(** [_generate_assignment_rationale]. *)
Definition _generate_assignment_rationale (agent : Agent) (skill_score : Q)
    (workload_factor experience_bonus : Q)
    (priority_result : PriorityAnalyzer.PriorityResult) (current_load : Z)
  : string :=
  let parts1 :=
    ["Assigned to " +:+ name agent +:+ " (" +:+ agent_id agent +:+ ")"] in
  let parts2 :=
    if Qgt_bool skill_score 0.7 then ["based on excellent skill match"]
    else if Qgt_bool skill_score 0.4 then ["based on good skill match"]
    else if Qgt_bool skill_score 0.1 then ["based on partial skill match"]
    else ["due to availability"] in
  let experience_level := experience_level agent in
  let parts3 :=
    if (experience_level >=? 10)%Z then
      ["and high experience level (" +:+ pretty experience_level +:+ " years)"]
    else if (experience_level >=? 5)%Z then
      ["and good experience (" +:+ pretty experience_level +:+ " years)"]
    else [] in
  let parts4 :=
    if (current_load <=? 2)%Z then ["with low current workload"]
    else if (current_load <=? 4)%Z then ["with moderate workload"]
    else if (current_load >? 6)%Z then
      ["despite high workload (best available)"]
    else [] in
  let parts5 :=
    match PriorityAnalyzer.priority_level priority_result with
    | CRITICAL | HIGH =>
        ["for this "
         +:+ level_name (PriorityAnalyzer.priority_level priority_result)
         +:+ " priority ticket"]
    | _ => []
    end in
  join_words (parts1 ++ parts2 ++ parts3 ++ parts4 ++ parts5) +:+ ".".

(** [agent.get('availability_status', '').lower() == 'available']. *)
Definition is_available (agent : Agent) : bool :=
  String.eqb (Text.lower (availability_status agent)) "available".

(** The workload factor of a load: [max(0, (8 - load) / 8)]. *)
Definition workload_factor_of (current_load : Z) : Q :=
  let max_reasonable_load := 8%Z in
  Qmax 0 (inject_Z (max_reasonable_load - current_load)
          / inject_Z max_reasonable_load).

(** The experience bonus: [min(experience_level / 15, 1.0)]. *)
Definition experience_bonus_of (agent : Agent) : Q :=
  Qmin (inject_Z (experience_level agent) / 15) 1.0.

(** [current_workloads.get(agent['agent_id'], 0)]. *)
Definition load_of (current_workloads : gmap string Z) (agent : Agent) : Z :=
  default 0%Z (current_workloads !! agent_id agent).

(** The [final_score] of one candidate in [_assign_single_ticket]. *)
Definition candidate_score (ticket : Ticket)
    (priority_result : PriorityAnalyzer.PriorityResult)
    (current_workloads : gmap string Z) (agent : Agent) : Q :=
  let skill_score := _calculate_skill_match ticket agent in
  let workload_factor :=
    workload_factor_of (load_of current_workloads agent) in
  let experience_bonus := experience_bonus_of agent in
  let priority_multiplier :=
    _get_priority_multiplier
      (PriorityAnalyzer.priority_level priority_result) in
  skill_score * 0.4 + workload_factor * 0.25 + experience_bonus * 0.2
  + priority_multiplier * 0.15.

(** The [best_*] variables of [_assign_single_ticket]. *)
Record Best := {
  best_agent : option Agent;
  best_score : Q;
  best_rationale : string;
  best_skill_score : Q;
  best_workload_factor : Q
}.

Definition initial_best : Best :=
  {| best_agent := None;
     best_score := -1;
     best_rationale := "";
     best_skill_score := 0;
     best_workload_factor := 0 |}.

(** Body of the loop over [agents] in [_assign_single_ticket]. *)
Definition consider (ticket : Ticket)
    (priority_result : PriorityAnalyzer.PriorityResult)
    (current_workloads : gmap string Z) (best : Best) (agent : Agent) : Best :=
  if negb (is_available agent) then best
  else
    let skill_score := _calculate_skill_match ticket agent in
    let current_load := load_of current_workloads agent in
    let workload_factor := workload_factor_of current_load in
    let experience_bonus := experience_bonus_of agent in
    let final_score :=
      candidate_score ticket priority_result current_workloads agent in
    if Qgt_bool final_score (best_score best) then
      {| best_agent := Some agent;
         best_score := final_score;
         best_rationale :=
           _generate_assignment_rationale agent skill_score workload_factor
             experience_bonus priority_result current_load;
         best_skill_score := skill_score;
         best_workload_factor := workload_factor |}
    else best.

(** The fallback after the loop: the agent identifier and the rationale of
    the record. *)
Definition choose (agents : list Agent) (best : Best) : string * string :=
  match best_agent best with
  | Some agent => (agent_id agent, best_rationale best)
  | None =>
      match List.filter is_available agents with
      | agent :: _ =>
          (agent_id agent,
           "Assigned to " +:+ name agent
           +:+ " (first available agent) due to no strong skill matches.")
      | [] =>
          (match agents with
           | agent :: _ => agent_id agent
           | [] => "agent_001"
           end,
           "Emergency assignment - no available agents found.")
      end
  end.

(** [_assign_single_ticket]. *)
Definition _assign_single_ticket (ticket : Ticket) (agents : list Agent)
    (current_workloads : gmap string Z) : AgentAssignment :=
  let priority_result :=
    PriorityAnalyzer.analyze_priority (title ticket) (description ticket) in
  let best :=
    fold_left (consider ticket priority_result current_workloads) agents
      initial_best in
  let '(best_agent_id, best_rationale) := choose agents best in
  {| assigned_ticket_id := ticket_id ticket;
     assigned_agent_id := best_agent_id;
     rationale := best_rationale;
     priority_level :=
       level_name (PriorityAnalyzer.priority_level priority_result);
     priority_score := PriorityAnalyzer.priority_score priority_result;
     skill_match_score := best_skill_score best;
     workload_factor := best_workload_factor best;
     final_score := best_score best |}.

(** The sort key of [_prioritize_tickets]:
    [(priority_level.value, -priority_score)]. *)
Definition sort_key (x : Ticket * PriorityAnalyzer.PriorityResult) : Z * Q :=
  (level_value (PriorityAnalyzer.priority_level (snd x)),
   - PriorityAnalyzer.priority_score (snd x)).

(** [a < b] on key tuples: the first components decide unless they are
    equal. *)
Definition key_ltb (a b : Z * Q) : bool :=
  if (fst a =? fst b)%Z then Qlt_bool (snd a) (snd b)
  else (fst a <? fst b)%Z.

(** [list.sort(key=...)] is a stable sort that compares keys with [<]: an
    insertion sort that puts every element behind the elements which are
    not greater. *)
Fixpoint insert_by {A K : Type} (ltb : K -> K -> bool) (key : A -> K)
    (x : A) (l : list A) : list A :=
  match l with
  | [] => [x]
  | y :: l' =>
      if ltb (key x) (key y) then x :: y :: l'
      else y :: insert_by ltb key x l'
  end.

Definition sort_by {A K : Type} (ltb : K -> K -> bool) (key : A -> K)
    (l : list A) : list A :=
  fold_left (fun sorted x => insert_by ltb key x sorted) l [].

(** The classification step of [_prioritize_tickets]. *)
Definition with_priority (ticket : Ticket)
  : Ticket * PriorityAnalyzer.PriorityResult :=
  (ticket,
   PriorityAnalyzer.analyze_priority (title ticket) (description ticket)).

(** [_prioritize_tickets]. *)
Definition _prioritize_tickets (tickets : list Ticket) : list Ticket :=
  let ticket_priorities := map with_priority tickets in
  map fst (sort_by key_ltb sort_key ticket_priorities).

(** The dictionary comprehension that initialises [agent_workloads]. *)
Definition initial_workloads (agents : list Agent) : gmap string Z :=
  fold_left (fun m agent => <[agent_id agent := current_load agent]> m)
    agents ∅.

(** [agent_workloads[key] += 1]. *)
Definition increment (agent_workloads : gmap string Z) (key : string)
  : outcome (gmap string Z) :=
  match agent_workloads !! key with
  | Some n => Returns (<[key := (n + 1)%Z]> agent_workloads)
  | None => Raises (KeyError key)
  end.

(** The loop of [assign_tickets]. *)
Fixpoint assign_loop (agents : list Agent) (prioritized_tickets : list Ticket)
    (agent_workloads : gmap string Z) (assignments : list AgentAssignment)
  : outcome (list AgentAssignment) :=
  match prioritized_tickets with
  | [] => Returns assignments
  | ticket :: rest =>
      let assignment := _assign_single_ticket ticket agents agent_workloads in
      match increment agent_workloads (assigned_agent_id assignment) with
      | Returns agent_workloads' =>
          assign_loop agents rest agent_workloads'
            (assignments ++ [assignment])
      | Raises e => Raises e
      end
  end.

(** [assign_tickets]. *)
Definition assign_tickets (dataset : Dataset)
  : outcome (list AgentAssignment) :=
  assign_loop (agents dataset) (_prioritize_tickets (tickets dataset))
    (initial_workloads (agents dataset)) [].

End TicketAssignmentSystem.

(** ** The allocation run as a transition system

    One run of [assign_tickets] owns the list of pending tickets, the
    workload counters and the records produced so far; the agent records
    are the caller's. A configuration is a running state, a returned result
    or a raised exception. *)

Module Run.
Import TicketAssignmentSystem.

Record State := {
  caller_agents : list Agent;
  pending : list Ticket;
  agent_workloads : gmap string Z;
  assignments : list AgentAssignment
}.

Inductive Config :=
| Running (s : State)
| Returned (agents : list Agent) (result : list AgentAssignment)
| Raised (agents : list Agent) (e : PyError).

(** One iteration of the loop of [assign_tickets], or its exit. *)
Inductive step : Config -> Config -> Prop :=
| step_commit agents ticket rest workloads workloads' done :
    increment workloads
      (assigned_agent_id (_assign_single_ticket ticket agents workloads))
    = Returns workloads' ->
    step
      (Running {| caller_agents := agents; pending := ticket :: rest;
                  agent_workloads := workloads; assignments := done |})
      (Running {| caller_agents := agents; pending := rest;
                  agent_workloads := workloads';
                  assignments :=
                    done ++ [_assign_single_ticket ticket agents workloads] |})
| step_raise agents ticket rest workloads done e :
    increment workloads
      (assigned_agent_id (_assign_single_ticket ticket agents workloads))
    = Raises e ->
    step
      (Running {| caller_agents := agents; pending := ticket :: rest;
                  agent_workloads := workloads; assignments := done |})
      (Raised agents e)
| step_return agents workloads done :
    step
      (Running {| caller_agents := agents; pending := [];
                  agent_workloads := workloads; assignments := done |})
      (Returned agents done).

(** The state in which the loop is entered. *)
Definition start (dataset : Dataset) : Config :=
  Running {| caller_agents := agents dataset;
             pending := _prioritize_tickets (tickets dataset);
             agent_workloads := initial_workloads (agents dataset);
             assignments := [] |}.

Definition terminal (c : Config) : Prop :=
  match c with
  | Running _ => False
  | _ => True
  end.




End Run.

(** ** Notions used in the statements *)

Module Props.
Import TicketAssignmentSystem.

(** The keyword table of a level. *)
Definition keyword_table (l : PriorityLevel) : list (string * Q) :=
  match l with
  | CRITICAL => PriorityAnalyzer.critical_keywords
  | HIGH => PriorityAnalyzer.high_keywords
  | MEDIUM => PriorityAnalyzer.medium_keywords
  | LOW => PriorityAnalyzer.low_keywords
  end.

(** An entry of a table whose phrase occurs in the text as whole words. *)
Definition matches (text : string) (entry : string * Q) : bool :=
  PriorityAnalyzer._find_keyword_in_text (fst entry) text.

(** The raw keyword-weight sum of a level. *)
Definition keyword_weight_sum (text : string) (l : PriorityLevel) : Q :=
  Qsum (map snd (List.filter (matches text) (keyword_table l))).

(** Position in the enumeration order. *)
Definition earlier (a b : PriorityLevel) : Prop :=
  (level_value a < level_value b)%Z.

(** Number of keywords of a skill that occur in the text as whole words;
    a skill outside the configuration table has none. *)
Definition match_count (text : string) (skill_name : string) : nat :=
  length
    (List.filter (fun keyword => Text.re_search_word (Text.lower keyword) text)
       (dict_get skill_keywords skill_name [])).

(** The contribution of a matched skill:
    [(skill_level / 10) * min(match_count / 3, 1.0)]. *)
Definition contribution (text : string) (entry : string * Z) : Q :=
  (inject_Z (snd entry) / 10)
  * Qmin (inject_Z (Z.of_nat (match_count text (fst entry))) / 3) 1.0.

(** The declared skills with at least one match. *)
Definition matched (text : string) (skills : list (string * Z))
  : list (string * Z) :=
  List.filter (fun entry => (0 <? match_count text (fst entry))%nat) skills.

(** The average contribution over the matched skills. *)
Definition average_contribution (text : string) (skills : list (string * Z))
  : Q :=
  Qsum (map (contribution text) (matched text skills))
  / inject_Z (Z.of_nat (length (matched text skills))).

(** In a list sorted by key, [x] may stand before [y]: the key of [y] is
    not less than the key of [x]. *)
Definition not_after {A K : Type} (ltb : K -> K -> bool) (key : A -> K)
    (x y : A) : Prop :=
  ltb (key y) (key x) = false.

(** The sort key of a ticket. *)
Definition ticket_key (ticket : Ticket) : Z * Q :=
  sort_key (with_priority ticket).

(** [a <= b] on keys: a more urgent level, or the same level and a score at
    least as high (the second component is the negated score). *)
Definition key_le (a b : Z * Q) : Prop :=
  (fst a < fst b)%Z \/ (fst a = fst b /\ snd a <= snd b).


(** No agent of the list passes the availability test. *)
Definition none_available (agents : list Agent) : Prop :=
  Forall (fun agent => is_available agent = false) agents.


(** What the loop of [_assign_single_ticket] has found after a prefix of the
    agents: nothing, and then no available agent of the prefix scored above
    the initial [-1]; or the first available agent with the highest score,
    with the values recorded for it. *)
Definition found (ticket : Ticket) (workloads : gmap string Z)
    (agents : list Agent) (best : Best) : Prop :=
  let priority_result :=
    PriorityAnalyzer.analyze_priority (title ticket) (description ticket) in
  let score := candidate_score ticket priority_result workloads in
  (best = initial_best
   /\ forall c, In c agents -> is_available c = true -> score c <= -1)
  \/ exists i a,
       agents !! i = Some a
       /\ is_available a = true
       /\ best
          = {| best_agent := Some a;
               best_score := score a;
               best_rationale :=
                 _generate_assignment_rationale a
                   (_calculate_skill_match ticket a)
                   (workload_factor_of (load_of workloads a))
                   (experience_bonus_of a) priority_result
                   (load_of workloads a);
               best_skill_score := _calculate_skill_match ticket a;
               best_workload_factor :=
                 workload_factor_of (load_of workloads a) |}
       /\ -1 < score a
       /\ forall j c,
            agents !! j = Some c -> is_available c = true ->
            score c <= score a /\ ((j < i)%nat -> score c < score a).

(** The data model's ranges for an agent record: skill levels between 1 and
    10, a non-negative experience level and a non-negative load. *)
Definition valid_agent (agent : Agent) : Prop :=
  Forall (fun entry => (1 <= snd entry <= 10)%Z) (skills agent)
  /\ (0 <= experience_level agent)%Z
  /\ (0 <= current_load agent)%Z.

(** The status is one of the four values of the data model. *)
Definition valid_status (agent : Agent) : Prop :=
  In (availability_status agent) ["Available"; "Busy"; "Offline"; "On Leave"].

(** Every agent of the list has a workload counter. *)
Definition covers (agents : list Agent) (workloads : gmap string Z) : Prop :=
  forall agent, In agent agents -> is_Some (workloads !! agent_id agent).

(** The last agent of the list with a given identifier. *)
Definition last_with_id (agents : list Agent) (id : string) : option Agent :=
  find (fun agent => String.eqb (agent_id agent) id) (rev agents).

End Props.

(** ** Sample data *)

Module Examples.
Import TicketAssignmentSystem.

Definition alice : Agent :=
  {| agent_id := "agent_001";
     name := "Alice";
     skills := [("Network_Security", 9%Z); ("Database_SQL", 4%Z)];
     availability_status := "Available";
     experience_level := 10;
     current_load := 0 |}.

Definition bob : Agent :=
  {| agent_id := "agent_002";
     name := "Bob";
     skills := [("Networking", 7%Z); ("Juggling", 10%Z)];
     availability_status := "Available";
     experience_level := 3;
     current_load := 2 |}.

Definition carol : Agent :=
  {| agent_id := "agent_003";
     name := "Carol";
     skills := [("Printer_Support", 5%Z)];
     availability_status := "Offline";
     experience_level := 5;
     current_load := 0 |}.

Definition security_ticket : Ticket :=
  {| ticket_id := "TKT-2025-001";
     title := "Security breach detected";
     description :=
       "There was unauthorized access to the server; malware and a firewall threat.";
     creation_timestamp := 1700000000 |}.

Definition printer_ticket : Ticket :=
  {| ticket_id := "TKT-2025-002";
     title := "Printer question";
     description := "How to install the printer driver";
     creation_timestamp := 1700000100 |}.

Definition office : Dataset :=
  {| agents := [alice; bob; carol];
     tickets := [printer_ticket; security_ticket; security_ticket] |}.

Definition night_shift : Dataset :=
  {| agents := [carol]; tickets := [printer_ticket] |}.

Definition front_desk : Dataset :=
  {| agents := [alice; carol]; tickets := [printer_ticket] |}.

(** The state of the run over [front_desk] after its only iteration. *)
Definition front_desk_after_one : Run.State :=
  {| Run.caller_agents := agents front_desk;
     Run.pending := [];
     Run.agent_workloads :=
       <["agent_001" := 1%Z]> (initial_workloads (agents front_desk));
     Run.assignments :=
       [_assign_single_ticket printer_ticket (agents front_desk)
          (initial_workloads (agents front_desk))] |}.

Definition shouted_ticket : Ticket :=
  {| ticket_id := "TKT-2025-003";
     title := "PRINTER QUESTION";
     description := "How to INSTALL the Printer Driver";
     creation_timestamp := 1700000200 |}.

(** The records of a run, or no records when it raised. *)
Definition records (o : outcome (list AgentAssignment))
  : list AgentAssignment :=
  match o with
  | Returns result => result
  | Raises _ => []
  end.

End Examples.

(** ** Reporting: statistics and summaries *)

Module Reports.
Import TicketAssignmentSystem.

Section Rationale.

(** Python's [format(x, '.1f')], which the rationale applies to floats. *)
Variable format_1f : Q -> string.

(** [keywords[:5]]. *)
Definition shown_keywords (keywords : list string) : list string :=
  firstn 5 keywords.

(** The [rationale_parts] of [_generate_rationale]. *)
Definition rationale_parts (priority : PriorityLevel) (score : Q)
    (keywords : list string) (multiplier : Q) : list string :=
  let parts1 := ["Assigned " +:+ level_name priority +:+ " priority"] in
  let parts2 :=
    match keywords with
    | [] => []
    | _ :: _ =>
        let keyword_text :=
          String.concat ", "
            (map (fun kw => "'" +:+ kw +:+ "'") (shown_keywords keywords)) in
        let keyword_text :=
          if (5 <? length keywords)%nat
          then keyword_text +:+ " and " +:+ pretty (length keywords - 5)%nat
               +:+ " more"
          else keyword_text in
        ["based on urgency indicators: " +:+ keyword_text]
    end in
  let parts3 :=
    if Qgt_bool multiplier 1.0
    then ["with " +:+ format_1f multiplier
          +:+ "x impact multiplier for scope/business impact"]
    else [] in
  let parts4 := ["(Priority score: " +:+ format_1f score +:+ ")"] in
  parts1 ++ parts2 ++ parts3 ++ parts4.

(** [PriorityAnalyzer._generate_rationale]. *)
Definition _generate_rationale (priority : PriorityLevel) (score : Q)
    (keywords : list string) (multiplier : Q) : string :=
  join_words (rationale_parts priority score keywords multiplier) +:+ ".".

(** The [rationale] field of the result of [analyze_priority]. *)
Definition analyze_priority_rationale (title description : string) : string :=
  let text := PriorityAnalyzer.full_text title description in
  let result := PriorityAnalyzer.analyze_priority title description in
  _generate_rationale (PriorityAnalyzer.priority_level result)
    (PriorityAnalyzer.priority_score result)
    (PriorityAnalyzer.matched_keywords result)
    (PriorityAnalyzer.impact_multiplier text).

(** One entry of [detailed_results]. *)
Record DetailedResult := {
  detail_ticket_id : string;
  detail_title : string;
  detail_priority : string;
  detail_score : Q;
  detail_keywords : list string;
  detail_rationale : string
}.

(** The dictionary returned by [get_priority_statistics]. *)
Record Statistics := {
  total_tickets : Z;
  priority_distribution : list (string * Z);
  priority_percentages : list (string * Q);
  detailed_results : list DetailedResult
}.

(** [d[key] += 1] on a dictionary kept in insertion order. *)
Fixpoint dict_increment (d : list (string * Z)) (key : string)
  : outcome (list (string * Z)) :=
  match d with
  | [] => Raises (KeyError key)
  | (k, v) :: d' =>
      if String.eqb k key then Returns ((k, (v + 1)%Z) :: d')
      else
        match dict_increment d' key with
        | Returns d'' => Returns ((k, v) :: d'')
        | Raises e => Raises e
        end
  end.

(** [{level.name: 0 for level in PriorityLevel}]. *)
Definition zero_counts : list (string * Z) :=
  map (fun level => (level_name level, 0%Z)) all_levels.

(** The loop of [get_priority_statistics]; the state is
    [(priority_counts, detailed_results)]. *)
Fixpoint statistics_loop (tickets : list Ticket)
    (priority_counts : list (string * Z))
    (detailed_results : list DetailedResult)
  : outcome (list (string * Z) * list DetailedResult) :=
  match tickets with
  | [] => Returns (priority_counts, detailed_results)
  | ticket :: rest =>
      let result :=
        PriorityAnalyzer.analyze_priority (title ticket)
          (description ticket) in
      match
        dict_increment priority_counts
          (level_name (PriorityAnalyzer.priority_level result))
      with
      | Raises e => Raises e
      | Returns priority_counts' =>
          statistics_loop rest priority_counts'
            (detailed_results
             ++ [{| detail_ticket_id := ticket_id ticket;
                    detail_title := title ticket;
                    detail_priority :=
                      level_name (PriorityAnalyzer.priority_level result);
                    detail_score := PriorityAnalyzer.priority_score result;
                    detail_keywords :=
                      PriorityAnalyzer.matched_keywords result;
                    detail_rationale :=
                      analyze_priority_rationale (title ticket)
                        (description ticket) |}])
      end
  end.

(** The percentage of one count:
    [(count / total_tickets * 100) if total_tickets > 0 else 0]. *)
Definition percentage (total_tickets count : Z) : Q :=
  if (total_tickets >? 0)%Z
  then inject_Z count / inject_Z total_tickets * 100
  else 0.

(** [get_priority_statistics]. *)
Definition get_priority_statistics (tickets : list Ticket)
  : outcome Statistics :=
  let total_tickets := Z.of_nat (length tickets) in
  match statistics_loop tickets zero_counts [] with
  | Raises e => Raises e
  | Returns (priority_counts, detailed_results) =>
      Returns
        {| total_tickets := total_tickets;
           priority_distribution := priority_counts;
           priority_percentages :=
             map (fun entry => (fst entry, percentage total_tickets (snd entry)))
               priority_counts;
           detailed_results := detailed_results |}
  end.

End Rationale.

(** The tally [counts[key] = counts.get(key, 0) + 1] of
    [generate_detailed_report] and [main]. *)
Definition tally_step (counts : gmap string Z) (key : string)
  : gmap string Z :=
  <[key := (default 0%Z (counts !! key) + 1)%Z]> counts.

Definition tally (keys : list string) : gmap string Z :=
  fold_left tally_step keys ∅.

(** The [summary] of [generate_detailed_report]: the number of records and
    the two tallies. The rounding of the scores and the JSON file are not
    modelled. *)
Record Summary := {
  summary_total_tickets : Z;
  summary_priority_distribution : gmap string Z;
  agent_workload_distribution : gmap string Z
}.

Definition report_summary (assignments : list AgentAssignment) : Summary :=
  {| summary_total_tickets := Z.of_nat (length assignments);
     summary_priority_distribution := tally (map priority_level assignments);
     agent_workload_distribution :=
       tally (map assigned_agent_id assignments) |}.

(** The [output_data] of [generate_output_file]: the three fields of the
    submission format, in the order of the records. *)
Definition output_data (assignments : list AgentAssignment)
  : list (string * string * string) :=
  map (fun assignment =>
         (assigned_ticket_id assignment, assigned_agent_id assignment,
          rationale assignment))
    assignments.

End Reports.

(** ** Further notions used in the statements *)

Module Props2.
Import TicketAssignmentSystem.


(** The keywords of a level's table that occur in the text, in table
    order. *)
Definition level_hits (text : string) (level : PriorityLevel) : list string :=
  map fst (List.filter (Props.matches text) (Props.keyword_table level)).



(** Number of records assigned to an agent identifier. *)
Definition assigned_count (id : string) (assignments : list AgentAssignment)
  : Z :=
  Z.of_nat
    (length
       (List.filter (fun r => String.eqb (assigned_agent_id r) id)
          assignments)).

(** Number of occurrences of a key. *)
Definition occurrences (key : string) (keys : list string) : Z :=
  Z.of_nat (length (List.filter (String.eqb key) keys)).

(** The sum of the counts of a tally. *)
Definition total_count (counts : gmap string Z) : Z :=
  map_fold (fun _ count total => (count + total)%Z) 0%Z counts.

(** Number of tickets that [analyze_priority] puts at a level. *)
Definition tickets_at (level : PriorityLevel) (tickets : list Ticket) : Z :=
  Z.of_nat
    (length
       (List.filter
          (fun ticket =>
             level_eqb level
               (PriorityAnalyzer.priority_level
                  (PriorityAnalyzer.analyze_priority (title ticket)
                     (description ticket))))
          tickets)).

(** The dictionary that maps every level name to a count, in the order of
    the enumeration. *)
Definition counts_dict (count : PriorityLevel -> Z) : list (string * Z) :=
  map (fun level => (level_name level, count level)) all_levels.

(** The entry of [detailed_results] for a ticket. *)
Definition detail_of (format_1f : Q -> string) (ticket : Ticket)
  : Reports.DetailedResult :=
  let result :=
    PriorityAnalyzer.analyze_priority (title ticket) (description ticket) in
  {| Reports.detail_ticket_id := ticket_id ticket;
     Reports.detail_title := title ticket;
     Reports.detail_priority :=
       level_name (PriorityAnalyzer.priority_level result);
     Reports.detail_score := PriorityAnalyzer.priority_score result;
     Reports.detail_keywords := PriorityAnalyzer.matched_keywords result;
     Reports.detail_rationale :=
       Reports.analyze_priority_rationale format_1f (title ticket)
         (description ticket) |}.

(** No workload counter is negative. *)
Definition nonnegative_counters (workloads : gmap string Z) : Prop :=
  forall key n, workloads !! key = Some n -> (0 <= n)%Z.

(** The identifiers of the agents are pairwise distinct. *)
Definition unique_ids (agents : list Agent) : Prop :=
  NoDup (map agent_id agents).

(** The text of the emergency fallback. *)
Definition emergency_rationale : string :=
  "Emergency assignment - no available agents found.".

End Props2.

(** * Properties *)

(** ** Float comparisons *)

Lemma Qgt_bool_true (x y : Q) : Qgt_bool x y = true <-> y < x.
Proof.
  unfold Qgt_bool. rewrite negb_true_iff.
  split; intros H.
  - apply Qnot_le_lt. intros Hle. apply Qle_bool_iff in Hle. congruence.
  - destruct (Qle_bool x y) eqn:E; [|reflexivity].
    apply Qle_bool_iff in E. exfalso. revert H. apply Qle_not_lt, E.
Qed.

Lemma Qgt_bool_false (x y : Q) : Qgt_bool x y = false <-> x <= y.
Proof.
  unfold Qgt_bool. rewrite negb_false_iff. apply Qle_bool_iff.
Qed.

Lemma Qlt_bool_true (x y : Q) : Qlt_bool x y = true <-> x < y.
Proof. apply (Qgt_bool_true y x). Qed.

Lemma Qlt_bool_false (x y : Q) : Qlt_bool x y = false <-> y <= x.
Proof. apply (Qgt_bool_false y x). Qed.

Lemma Qsum_cons (x : Q) (l : list Q) : Qsum (x :: l) = x + Qsum l.
Proof. reflexivity. Qed.

Lemma Qsum_app (l1 l2 : list Q) : Qsum (l1 ++ l2) == Qsum l1 + Qsum l2.
Proof.
  induction l1 as [|x l1 IH].
  - change (Qsum l2 == 0 + Qsum l2). ring.
  - cbn [app]. rewrite !Qsum_cons, IH. ring.
Qed.

Lemma Qsum_nonneg (l : list Q) : Forall (fun x => 0 <= x) l -> 0 <= Qsum l.
Proof.
  induction 1 as [|x l Hx _ IH]; [apply Qle_refl|].
  rewrite Qsum_cons. lra.
Qed.

(** ** The keyword loop of [analyze_priority] *)

Section Scan.
Import PriorityAnalyzer Props.
Variable text : string.

Lemma level_eqb_eq (a b : PriorityLevel) : level_eqb a b = true <-> a = b.
Proof.
  destruct a, b; split; intros H;
    solve [reflexivity | discriminate H | vm_compute in H; discriminate H].
Qed.

(** Scanning the table of [level] adds the weights of the matching entries
    to the score of [level] and leaves the other scores alone. *)
Lemma scan_table (level : PriorityLevel) (table : list (string * Q))
    (st : scan_state) (l : PriorityLevel) :
  fst (fold_left (scan_keyword text level) table st) l
  == fst st l
     + (if level_eqb level l
        then Qsum (map snd (List.filter (matches text) table)) else 0).
Proof.
  revert st. induction table as [|[keyword weight] table IH]; intros st.
  - simpl. destruct (level_eqb level l); ring.
  - cbn [fold_left]. rewrite IH. unfold scan_keyword.
    cbn [List.filter].
    change (matches text (keyword, weight))
      with (_find_keyword_in_text keyword text).
    destruct (_find_keyword_in_text keyword text).
    + cbn [fst snd map]. rewrite Qsum_cons. unfold set_score.
      destruct (level_eqb level l) eqn:E; [|ring].
      apply level_eqb_eq in E. subst l. ring.
    + destruct (level_eqb level l); ring.
Qed.

Lemma scan_levels_sum (c h m lo : list (string * Q)) (l : PriorityLevel) :
  fst (fold_left (scan_level text)
         [(CRITICAL, c); (HIGH, h); (MEDIUM, m); (LOW, lo)]
         (fun _ => 0.0, [])) l
  == Qsum (map snd (List.filter (matches text)
                      match l with
                      | CRITICAL => c
                      | HIGH => h
                      | MEDIUM => m
                      | LOW => lo
                      end)).
Proof.
  cbn [fold_left]. unfold scan_level. cbn [fst snd].
  rewrite !scan_table. cbn [fst].
  destruct l; cbn [level_eqb level_value Z.eqb Pos.eqb]; ring.
Qed.

Lemma priority_scores_sum (l : PriorityLevel) :
  priority_scores text l == keyword_weight_sum text l.
Proof.
  unfold priority_scores, scan_all, urgency_keywords, keyword_weight_sum.
  rewrite scan_levels_sum. now destruct l.
Qed.

(** The matched keywords are appended level by level, in table order. *)
Lemma scan_table_matched (level : PriorityLevel) (table : list (string * Q))
    (st : scan_state) :
  snd (fold_left (scan_keyword text level) table st)
  = snd st ++ map fst (List.filter (matches text) table).
Proof.
  revert st. induction table as [|[keyword weight] table IH]; intros st.
  - simpl. now rewrite app_nil_r.
  - cbn [fold_left]. rewrite IH. unfold scan_keyword.
    cbn [List.filter].
    change (matches text (keyword, weight))
      with (_find_keyword_in_text keyword text).
    destruct (_find_keyword_in_text keyword text); cbn [snd map fst].
    + now rewrite <- app_assoc.
    + reflexivity.
Qed.

(** ** The impact loop *)

Lemma impact_fold_ge (table : list (string * Q)) (acc : Q) :
  acc <= fold_left (impact_step text) table acc.
Proof.
  revert acc. induction table as [|e table IH]; intros acc; simpl.
  - apply Qle_refl.
  - eapply Qle_trans; [|apply IH]. unfold impact_step.
    destruct (_find_keyword_in_text (fst e) text);
      [apply Q.le_max_l | apply Qle_refl].
Qed.

Lemma impact_fold_upper (table : list (string * Q)) (acc : Q) (e : string * Q) :
  In e (List.filter (matches text) table) ->
  snd e <= fold_left (impact_step text) table acc.
Proof.
  revert acc. induction table as [|e' table IH]; intros acc; simpl.
  - intros [].
  - change (matches text e') with (_find_keyword_in_text (fst e') text).
    unfold impact_step at 2.
    destruct (_find_keyword_in_text (fst e') text) eqn:E.
    + intros [-> | Hin].
      * eapply Qle_trans; [apply Q.le_max_r | apply impact_fold_ge].
      * now apply IH.
    + apply IH.
Qed.

(** The maximum is attained: the result is the start value or the
    multiplier of a matching entry. *)
Lemma impact_fold_attained (table : list (string * Q)) (acc : Q) :
  fold_left (impact_step text) table acc = acc
  \/ exists e, In e (List.filter (matches text) table)
               /\ fold_left (impact_step text) table acc = snd e.
Proof.
  revert acc. induction table as [|e' table IH]; intros acc.
  - now left.
  - cbn [fold_left List.filter].
    change (matches text e') with (_find_keyword_in_text (fst e') text).
    destruct (IH (impact_step text acc e')) as [H | (e & He & H)];
      rewrite H; clear H; unfold impact_step;
      destruct (_find_keyword_in_text (fst e') text) eqn:E.
    + unfold Qmax, GenericMinMax.gmax.
      destruct (acc ?= snd e'); [now left | right | now left].
      exists e'. split; [now left | reflexivity].
    + now left.
    + right. exists e. split; [now right | reflexivity].
    + right. now exists e.
Qed.

Lemma impact_fold_no_match (table : list (string * Q)) (acc : Q) :
  List.filter (matches text) table = [] ->
  fold_left (impact_step text) table acc = acc.
Proof.
  intros H. destruct (impact_fold_attained table acc) as [E | (e & He & _)].
  - exact E.
  - rewrite H in He. destruct He.
Qed.

End Scan.

(** ** The configuration tables *)

Section Tables.
Import PriorityAnalyzer Props.

Lemma forallb_Forall {A : Type} (f : A -> bool) (P : A -> Prop) (l : list A) :
  (forall x, f x = true -> P x) -> forallb f l = true -> Forall P l.
Proof.
  intros Hf H. apply List.Forall_forall. intros x Hx.
  apply Hf. revert x Hx. now apply forallb_forall.
Qed.

(** Every keyword weight is positive. *)
Lemma keyword_weights_positive (l : PriorityLevel) :
  Forall (fun e => 0 < snd e) (keyword_table l).
Proof.
  apply (forallb_Forall (fun e => Qlt_bool 0 (snd e))).
  - intros e. apply Qlt_bool_true.
  - destruct l; vm_compute; reflexivity.
Qed.

(** Every impact multiplier is at least 1.0. *)
Lemma impact_multipliers_ge_1 :
  Forall (fun e => 1 <= snd e) impact_multipliers.
Proof.
  apply (forallb_Forall (fun e => Qle_bool 1 (snd e))).
  - intros e. apply Qle_bool_iff.
  - vm_compute; reflexivity.
Qed.

Lemma Forall_filter_weak {A : Type} (P : A -> Prop) (f : A -> bool)
    (l : list A) :
  Forall P l -> Forall P (List.filter f l).
Proof.
  rewrite !List.Forall_forall. intros H x Hx.
  apply filter_In in Hx. now apply H.
Qed.

Lemma keyword_weight_sum_nonneg (text : string) (l : PriorityLevel) :
  0 <= keyword_weight_sum text l.
Proof.
  unfold keyword_weight_sum. apply Qsum_nonneg.
  apply List.Forall_forall. intros x Hx.
  apply in_map_iff in Hx. destruct Hx as (e & <- & He).
  apply filter_In in He. destruct He as [He _].
  pose proof (keyword_weights_positive l) as Hpos.
  rewrite List.Forall_forall in Hpos. apply Qlt_le_weak. now apply Hpos.
Qed.

Lemma impact_multiplier_ge_1 (text : string) : 1 <= impact_multiplier text.
Proof.
  unfold impact_multiplier.
  eapply Qle_trans; [|apply impact_fold_ge]. apply Qle_lteq. right.
  reflexivity.
Qed.

Lemma final_scores_product (text : string) (l : PriorityLevel) :
  final_scores text l == keyword_weight_sum text l * impact_multiplier text.
Proof. unfold final_scores. now rewrite priority_scores_sum. Qed.

Lemma final_scores_nonneg (text : string) (l : PriorityLevel) :
  0 <= final_scores text l.
Proof.
  rewrite final_scores_product.
  apply Qmult_le_0_compat; [apply keyword_weight_sum_nonneg|].
  pose proof (impact_multiplier_ge_1 text). lra.
Qed.

End Tables.

(** ** [_determine_winning_priority] *)

Section Winning.
Import PriorityAnalyzer Props.
Variable s : scores.

Lemma max_score_unfold :
  max_score s = Qmax (Qmax (Qmax (s CRITICAL) (s HIGH)) (s MEDIUM)) (s LOW).
Proof. reflexivity. Qed.

Lemma max_score_ge (l : PriorityLevel) : s l <= max_score s.
Proof.
  rewrite max_score_unfold.
  pose proof (Q.le_max_l (s CRITICAL) (s HIGH)).
  pose proof (Q.le_max_r (s CRITICAL) (s HIGH)).
  pose proof (Q.le_max_l (Qmax (s CRITICAL) (s HIGH)) (s MEDIUM)).
  pose proof (Q.le_max_r (Qmax (s CRITICAL) (s HIGH)) (s MEDIUM)).
  pose proof (Q.le_max_l (Qmax (Qmax (s CRITICAL) (s HIGH)) (s MEDIUM))
                (s LOW)).
  pose proof (Q.le_max_r (Qmax (Qmax (s CRITICAL) (s HIGH)) (s MEDIUM))
                (s LOW)).
  destruct l; lra.
Qed.

Lemma Qmax_either (x y : Q) : Qmax x y = x \/ Qmax x y = y.
Proof.
  unfold Qmax, GenericMinMax.gmax. destruct (x ?= y); auto.
Qed.

Lemma max_score_attained : exists l, max_score s = s l.
Proof.
  rewrite max_score_unfold.
  destruct (Qmax_either (Qmax (Qmax (s CRITICAL) (s HIGH)) (s MEDIUM))
              (s LOW)) as [-> | ->]; [|now exists LOW].
  destruct (Qmax_either (Qmax (s CRITICAL) (s HIGH)) (s MEDIUM))
    as [-> | ->]; [|now exists MEDIUM].
  destruct (Qmax_either (s CRITICAL) (s HIGH)) as [-> | ->];
    [now exists CRITICAL | now exists HIGH].
Qed.

Lemma Qeq_bool_false (x y : Q) : Qeq_bool x y = false -> ~ x == y.
Proof. intros H E. apply Qeq_bool_iff in E. congruence. Qed.

(** The winner is [MEDIUM] when the maximum is 0, and otherwise the
    earliest level whose score is the maximum. *)
Lemma winning_priority_spec :
  (max_score s == 0 -> _determine_winning_priority s = MEDIUM)
  /\ (~ max_score s == 0 ->
      s (_determine_winning_priority s) == max_score s
      /\ forall l, earlier l (_determine_winning_priority s) ->
                   ~ s l == max_score s).
Proof.
  unfold _determine_winning_priority.
  destruct (Qeq_bool (max_score s) 0) eqn:E0.
  - split; [reflexivity|]. intros H. apply Qeq_bool_iff in E0. contradiction.
  - split; [intros H; apply Qeq_bool_iff in H; congruence|]. intros _.
    cbn [find all_levels].
    destruct (Qeq_bool (s CRITICAL) (max_score s)) eqn:E1;
      [apply Qeq_bool_iff in E1; split; [exact E1|];
       intros [] Hl; vm_compute in Hl; discriminate Hl|].
    destruct (Qeq_bool (s HIGH) (max_score s)) eqn:E2;
      [apply Qeq_bool_iff in E2; split; [exact E2|];
       intros [] Hl; solve [vm_compute in Hl; discriminate Hl
                           | now apply Qeq_bool_false]|].
    destruct (Qeq_bool (s MEDIUM) (max_score s)) eqn:E3;
      [apply Qeq_bool_iff in E3; split; [exact E3|];
       intros [] Hl; solve [vm_compute in Hl; discriminate Hl
                           | now apply Qeq_bool_false]|].
    destruct (Qeq_bool (s LOW) (max_score s)) eqn:E4;
      [apply Qeq_bool_iff in E4; split; [exact E4|];
       intros [] Hl; solve [vm_compute in Hl; discriminate Hl
                           | now apply Qeq_bool_false]|].
    exfalso. destruct max_score_attained as [l Hl].
    destruct l; rewrite Hl in *;
      match goal with
      | H : Qeq_bool ?x ?x = false |- _ =>
          apply Qeq_bool_false in H; apply H; reflexivity
      end.
Qed.

End Winning.

(** ** The priority classifier *)

Section Classifier.
Import PriorityAnalyzer Props.

Lemma analyze_priority_level (title description : string) :
  priority_level (analyze_priority title description)
  = _determine_winning_priority (final_scores (full_text title description)).
Proof. unfold analyze_priority. reflexivity. Qed.

Lemma analyze_priority_score (title description : string) :
  priority_score (analyze_priority title description)
  = final_scores (full_text title description)
      (_determine_winning_priority
         (final_scores (full_text title description))).
Proof. unfold analyze_priority. reflexivity. Qed.

(** C2. [analyze_priority] returns the level whose final score (keyword
    weight sum times the impact multiplier) is highest; among levels that
    tie at the maximum it returns the earliest one in the order CRITICAL,
    HIGH, MEDIUM, LOW, so every earlier level scores strictly less; when all
    four final scores are 0 the result is MEDIUM with score 0. *)
Theorem analyze_priority_winning_level (title description : string) :
  let text := full_text title description in
  let score := fun l => keyword_weight_sum text l * impact_multiplier text in
  let r := analyze_priority title description in
  priority_score r == score (priority_level r)
  /\ ((forall l, score l == 0) ->
      priority_level r = MEDIUM /\ priority_score r == 0)
  /\ ((exists l, ~ score l == 0) ->
      (forall l, score l <= score (priority_level r))
      /\ (forall l, earlier l (priority_level r) ->
                    score l < score (priority_level r))).
Proof.
  intros text score r.
  pose proof (final_scores_product text) as Hfs.
  pose proof (winning_priority_spec (final_scores text)) as [Hzero Hmax].
  pose proof (max_score_ge (final_scores text)) as Hge.
  destruct (max_score_attained (final_scores text)) as [lm Hlm].
  unfold r. rewrite analyze_priority_score, analyze_priority_level.
  fold text. set (w := _determine_winning_priority (final_scores text)) in *.
  split; [apply Hfs|]. split.
  - intros Hall.
    assert (Hw : w = MEDIUM).
    { apply Hzero. rewrite Hlm, Hfs. apply Hall. }
    split; [exact Hw|]. rewrite Hfs. apply Hall.
  - intros [l0 Hl0].
    assert (Hpos : 0 < max_score (final_scores text)).
    { pose proof (final_scores_nonneg text l0) as H0.
      pose proof (Hge l0) as H1. rewrite Hfs in H0, H1.
      fold (score l0) in H0, H1.
      destruct (Qlt_le_dec 0 (score l0)) as [Hlt | Hle]; [lra|].
      exfalso. apply Hl0. lra. }
    destruct Hmax as [Hw Hearly].
    { intros E. rewrite E in Hpos. revert Hpos. apply Qlt_irrefl. }
    split.
    + intros l. unfold score. rewrite <- !Hfs, Hw. apply Hge.
    + intros l Hl. unfold score. rewrite <- !Hfs, Hw.
      destruct (proj1 (Qle_lteq _ _) (Hge l)) as [Hlt | Heq]; [exact Hlt|].
      exfalso. now apply (Hearly l).
Qed.

(** C3. The impact multiplier of [analyze_priority] is 1.0 when no phrase of
    the impact table occurs in the lowercased text as whole words, and
    otherwise the largest multiplier among the phrases that occur; the final
    score of every level, and so the score of the result, is that level's
    keyword weight sum times this one multiplier. *)
Theorem impact_multiplier_is_maximum (title description : string) :
  let text := full_text title description in
  let m := impact_multiplier text in
  let hits := List.filter (matches text) impact_multipliers in
  let r := analyze_priority title description in
  (hits = [] -> m == 1)
  /\ (hits <> [] ->
      (exists e, In e hits /\ m == snd e)
      /\ (forall e, In e hits -> snd e <= m))
  /\ (forall l, final_scores text l == keyword_weight_sum text l * m)
  /\ priority_score r == keyword_weight_sum text (priority_level r) * m.
Proof.
  intros text m hits r. split; [|split; [|split]].
  - intros H. unfold m, impact_multiplier.
    rewrite impact_fold_no_match by exact H. reflexivity.
  - intros Hne.
    assert (Hup : forall e, In e hits -> snd e <= m).
    { intros e He. now apply impact_fold_upper. }
    split; [|exact Hup].
    destruct (impact_fold_attained text impact_multipliers 1.0)
      as [H | (e & He & H)].
    + destruct hits as [|e hits'] eqn:Eh; [congruence|].
      exists e. split; [now left|].
      assert (He : In e (List.filter (matches text) impact_multipliers)).
      { fold hits. rewrite Eh. now left. }
      pose proof (Hup e (or_introl eq_refl)) as H1.
      apply filter_In in He. destruct He as [He _].
      pose proof impact_multipliers_ge_1 as Hge.
      rewrite List.Forall_forall in Hge. specialize (Hge e He).
      assert (Hm : m == 1) by (unfold m, impact_multiplier; now rewrite H).
      lra.
    + exists e. split; [exact He|]. unfold m, impact_multiplier.
      now rewrite H.
  - apply final_scores_product.
  - unfold r. rewrite analyze_priority_score, analyze_priority_level.
    apply final_scores_product.
Qed.

(** In the first scenario the phrases "all users" (2.0), "production" (2.5)
    and "immediately" (2.0) all occur: the multiplier is 2.5. *)
Example impact_multiplier_scenario :
  impact_multiplier
    (full_text "Production server is completely down"
       "All users cannot access the main application. Emergency response needed immediately.")
  == 2.5.
Proof. vm_compute. reflexivity. Qed.

(** A tie at the maximum: MEDIUM ("request", 2.0) and LOW ("enhancement"
    and "feature request", 1.0 each) both score 2; the earlier level wins. *)
Example analyze_priority_tie :
  priority_level
    (analyze_priority "Feature request: Add dark mode to dashboard"
       "Users have requested a dark theme option. This would be a nice enhancement when time permits.")
  = MEDIUM.
Proof. vm_compute. reflexivity. Qed.

End Classifier.

(** ** The skill relevance score *)

Section SkillMatch.
Import TicketAssignmentSystem Props.
Variable text : string.

Lemma count_keyword_matches_fold (keywords : list string) (acc : Z) :
  fold_left
    (fun keyword_matches keyword =>
       if Text.re_search_word (Text.lower keyword) text
       then (keyword_matches + 1)%Z else keyword_matches)
    keywords acc
  = (acc
     + Z.of_nat
         (length
            (List.filter
               (fun keyword => Text.re_search_word (Text.lower keyword) text)
               keywords)))%Z.
Proof.
  revert acc. induction keywords as [|k keywords IH]; intros acc.
  - simpl. lia.
  - cbn [fold_left List.filter]. rewrite IH.
    destruct (Text.re_search_word (Text.lower k) text); cbn [length];
      rewrite ?Nat2Z.inj_succ; lia.
Qed.

(** The counter of the inner loop is the number of matching keywords. *)
Lemma count_keyword_matches_count (skill_name : string) :
  count_keyword_matches text (dict_get skill_keywords skill_name [])
  = Z.of_nat (match_count text skill_name).
Proof.
  unfold count_keyword_matches, match_count.
  now rewrite count_keyword_matches_fold.
Qed.

Lemma skill_step_spec (st : Q * Z) (entry : string * Z) :
  skill_step text st entry
  = if (0 <? match_count text (fst entry))%nat
    then (fst st + contribution text entry, (snd st + 1)%Z)
    else st.
Proof.
  destruct entry as [skill_name skill_level]. unfold skill_step.
  rewrite count_keyword_matches_count. unfold contribution. cbn [fst snd].
  destruct (match_count text skill_name) as [|n] eqn:E.
  - reflexivity.
  - replace (Z.of_nat (S n) >? 0)%Z with true; [reflexivity|].
    symmetry. rewrite Z.gtb_ltb. apply Z.ltb_lt. lia.
Qed.

(** The loop accumulates the contributions of the matched skills and counts
    them. *)
Lemma skill_fold_spec (skills : list (string * Z)) (st : Q * Z) :
  fst (fold_left (skill_step text) skills st)
  == fst st + Qsum (map (contribution text) (matched text skills))
  /\ snd (fold_left (skill_step text) skills st)
     = (snd st + Z.of_nat (length (matched text skills)))%Z.
Proof.
  revert st. induction skills as [|entry skills IH]; intros st.
  - cbn. split; [unfold Qsum; cbn; ring | lia].
  - cbn [fold_left]. destruct (IH (skill_step text st entry)) as [IH1 IH2].
    rewrite IH1, IH2, skill_step_spec. unfold matched. cbn [List.filter].
    destruct (0 <? match_count text (fst entry))%nat; cbn [fst snd].
    + cbn [map length]. rewrite Qsum_cons. split; [ring | lia].
    + split; [reflexivity | reflexivity].
Qed.

Lemma contribution_range (entry : string * Z) :
  (0 <= snd entry <= 10)%Z -> 0 <= contribution text entry <= 1.
Proof.
  intros [Hlo Hhi]. unfold contribution.
  set (n := match_count text (fst entry)).
  assert (H1 : 0 <= inject_Z (snd entry) / 10 <= 1).
  { split.
    - apply Qle_shift_div_l; [reflexivity|]. rewrite Qmult_0_l.
      change 0 with (inject_Z 0). now rewrite <- Zle_Qle.
    - apply Qle_shift_div_r; [reflexivity|]. rewrite Qmult_1_l.
      change 10 with (inject_Z 10). now rewrite <- Zle_Qle. }
  assert (H2 : 0 <= Qmin (inject_Z (Z.of_nat n) / 3) 1.0 <= 1).
  { split;
      [|pose proof (Q.le_min_r (inject_Z (Z.of_nat n) / 3) 1.0); lra].
    apply Q.min_glb; [|discriminate].
    apply Qle_shift_div_l; [reflexivity|]. rewrite Qmult_0_l.
    change 0 with (inject_Z 0). rewrite <- Zle_Qle. lia. }
  split.
  - apply Qmult_le_0_compat; tauto.
  - destruct H1 as [H1 H1'], H2 as [H2 H2'].
    apply Qle_trans with (1 * 1); [|discriminate].
    apply Qmult_le_compat_nonneg; split; assumption.
Qed.

Lemma Qsum_range (l : list Q) :
  Forall (fun x => 0 <= x <= 1) l ->
  0 <= Qsum l <= inject_Z (Z.of_nat (length l)).
Proof.
  induction 1 as [|x l [Hx0 Hx1] _ [IH0 IH1]].
  - split; apply Qle_refl.
  - rewrite Qsum_cons. cbn [length]. rewrite Nat2Z.inj_succ.
    unfold Z.succ. rewrite inject_Z_plus. change (inject_Z 1) with 1.
    split; lra.
Qed.

End SkillMatch.

Section SkillMatchResult.
Import TicketAssignmentSystem Props.

(** Without any assumption on the levels: 0.0 when no declared skill
    matched, and otherwise the average contribution capped at 1.0. *)
Lemma calculate_skill_match_general (ticket : Ticket) (agent : Agent) :
  let text := skill_text ticket in
  (matched text (skills agent) = [] ->
   _calculate_skill_match ticket agent == 0)
  /\ (matched text (skills agent) <> [] ->
      _calculate_skill_match ticket agent
      == Qmin (average_contribution text (skills agent)) 1.0).
Proof.
  intros text. unfold _calculate_skill_match. fold text.
  destruct (skill_fold_spec text (skills agent) (0, 0%Z)) as [H1 H2].
  destruct (fold_left (skill_step text) (skills agent) (0, 0%Z))
    as [total_score matched_skills].
  cbn [fst snd] in H1, H2. rewrite Z.add_0_l in H2.
  rewrite Qplus_0_l in H1. split.
  - intros E. rewrite E in H2. cbn in H2. subst matched_skills.
    reflexivity.
  - intros Hne.
    destruct (matched text (skills agent)) as [|e ms] eqn:E; [congruence|].
    assert (Hn : (matched_skills =? 0)%Z = false).
    { apply Z.eqb_neq. cbn [length] in H2. lia. }
    rewrite Hn. unfold average_contribution. rewrite E, <- H2, H1.
    reflexivity.
Qed.

Lemma average_contribution_range (text : string)
    (skills : list (string * Z)) :
  Forall (fun entry => (0 <= snd entry <= 10)%Z) skills ->
  matched text skills <> [] ->
  0 <= average_contribution text skills <= 1.
Proof.
  intros Hvalid Hne. unfold average_contribution.
  assert (Hr : Forall (fun x => 0 <= x <= 1)
                 (map (contribution text) (matched text skills))).
  { apply List.Forall_forall. intros x Hx.
    apply in_map_iff in Hx. destruct Hx as (e & <- & He).
    apply contribution_range. unfold matched in He.
    apply filter_In in He. destruct He as [He _].
    rewrite List.Forall_forall in Hvalid. now apply Hvalid. }
  apply Qsum_range in Hr. rewrite length_map in Hr.
  set (n := length (matched text skills)) in *.
  assert (Hn : 0 < inject_Z (Z.of_nat n)).
  { change 0 with (inject_Z 0). rewrite <- Zlt_Qlt.
    unfold n. destruct (matched text skills); [congruence | cbn; lia]. }
  destruct Hr as [Hr0 Hr1]. split.
  - apply Qle_shift_div_l; [exact Hn|]. now rewrite Qmult_0_l.
  - apply Qle_shift_div_r; [exact Hn|]. now rewrite Qmult_1_l.
Qed.

Lemma calculate_skill_match_nonneg (ticket : Ticket) (agent : Agent) :
  Forall (fun entry => (0 <= snd entry <= 10)%Z) (skills agent) ->
  0 <= _calculate_skill_match ticket agent <= 1.
Proof.
  intros Hvalid.
  destruct (calculate_skill_match_general ticket agent) as [H0 H1].
  destruct (matched (skill_text ticket) (skills agent)) as [|e ms] eqn:E.
  - rewrite H0 by reflexivity. split; [apply Qle_refl | discriminate].
  - rewrite H1 by discriminate.
    assert (Hne : matched (skill_text ticket) (skills agent) <> [])
      by (rewrite E; discriminate).
    pose proof (average_contribution_range _ _ Hvalid Hne) as [Ha0 Ha1].
    pose proof (Q.le_min_r
                  (average_contribution (skill_text ticket) (skills agent))
                  1.0).
    split; [apply Q.min_glb; [exact Ha0 | discriminate] | lra].
Qed.

Lemma valid_levels_weaken (skills : list (string * Z)) :
  Forall (fun entry => (1 <= snd entry <= 10)%Z) skills ->
  Forall (fun entry => (0 <= snd entry <= 10)%Z) skills.
Proof. intros H. eapply List.Forall_impl; [|exact H]. cbv beta. intros e He. lia. Qed.

(** A skill that is not a key of the configuration table matches no
    keyword. *)
Lemma unknown_skill_no_match (text skill_name : string) :
  (forall keywords, ~ In (skill_name, keywords) skill_keywords) ->
  match_count text skill_name = 0%nat.
Proof.
  unfold match_count. generalize skill_keywords as d.
  induction d as [|[k v] d IH]; intros H; [reflexivity|].
  cbn [dict_get]. destruct (String.eqb k skill_name) eqn:E.
  - apply String.eqb_eq in E. subst k. exfalso. apply (H v). now left.
  - apply IH. intros keywords Hin. apply (H keywords). now right.
Qed.

(** C4. With skill levels in the range of the data model, the skill
    relevance score lies in [0,1]; it is exactly 0 when no declared skill has
    a whole-word keyword match, and otherwise it is the average, over the
    declared skills with at least one match, of
    [(skill_level / 10) * min(match_count / 3, 1.0)]. A declared skill that
    is absent from the configuration table is not among the matched skills,
    so it does not enter the average. *)
Theorem calculate_skill_match_average (ticket : Ticket) (agent : Agent) :
  Forall (fun entry => (1 <= snd entry <= 10)%Z) (skills agent) ->
  let text := skill_text ticket in
  let score := _calculate_skill_match ticket agent in
  0 <= score <= 1
  /\ (matched text (skills agent) = [] -> score == 0)
  /\ (matched text (skills agent) <> [] ->
      score == average_contribution text (skills agent))
  /\ (forall entry,
        In entry (skills agent) ->
        (forall keywords, ~ In (fst entry, keywords) skill_keywords) ->
        ~ In entry (matched text (skills agent))).
Proof.
  intros Hvalid text score. apply valid_levels_weaken in Hvalid.
  destruct (calculate_skill_match_general ticket agent) as [H0 H1].
  split; [now apply calculate_skill_match_nonneg|].
  split; [exact H0|]. split.
  - intros Hne. unfold score. rewrite (H1 Hne).
    pose proof (average_contribution_range _ _ Hvalid Hne) as [_ Ha1].
    apply Q.min_l. lra.
  - intros entry _ Hunknown Hin. unfold matched in Hin.
    apply filter_In in Hin. destruct Hin as [_ Hin].
    rewrite (unknown_skill_no_match text _ Hunknown) in Hin.
    discriminate Hin.
Qed.

End SkillMatchResult.

(** ** The stable sort of [_prioritize_tickets] *)

Section StableSort.
Import TicketAssignmentSystem Props.
Context {A K : Type}.
Variable ltb : K -> K -> bool.
Variable key : A -> K.

Hypothesis ltb_asym : forall a b, ltb a b = true -> ltb b a = false.
Hypothesis ltb_negtrans :
  forall a b c, ltb b a = false -> ltb c b = false -> ltb c a = false.

Lemma insert_by_perm (x : A) (l : list A) :
  Permutation (x :: l) (insert_by ltb key x l).
Proof.
  induction l as [|y l IH]; cbn [insert_by]; [reflexivity|].
  destruct (ltb (key x) (key y)); [reflexivity|].
  rewrite perm_swap. now apply perm_skip.
Qed.

Lemma insert_by_sorted (x : A) (l : list A) :
  StronglySorted (not_after ltb key) l -> StronglySorted (not_after ltb key) (insert_by ltb key x l).
Proof.
  induction 1 as [|y l Hs IH Hy]; cbn [insert_by].
  - repeat constructor.
  - destruct (ltb (key x) (key y)) eqn:E.
    + constructor; [now constructor|].
      constructor; [now apply ltb_asym|].
      rewrite List.Forall_forall in *. intros z Hz. specialize (Hy z Hz).
      unfold not_after in *.
      apply ltb_negtrans with (b := key y); [now apply ltb_asym | exact Hy].
    + constructor; [exact IH|].
      rewrite List.Forall_forall in *. intros z Hz.
      apply (Permutation_in z (Permutation_sym (insert_by_perm x l))) in Hz.
      destruct Hz as [<- | Hz]; [exact E | now apply Hy].
Qed.

(** A class of elements whose keys compare equal. *)
Variable p : A -> bool.
Hypothesis p_equal :
  forall a b, p a = true -> p b = true -> ltb (key a) (key b) = false.

(** Within such a class an inserted element goes behind the ones that are
    already there. *)
Lemma insert_by_filter (x : A) (l : list A) :
  StronglySorted (not_after ltb key) l ->
  List.filter p (insert_by ltb key x l)
  = List.filter p l ++ (if p x then [x] else []).
Proof.
  induction 1 as [|y l Hs IH Hy]; cbn [insert_by].
  - cbn [List.filter]. now destruct (p x).
  - destruct (ltb (key x) (key y)) eqn:E.
    + cbn [List.filter]. destruct (p x) eqn:Ex; [|now rewrite app_nil_r].
      assert (Hall : forall z, In z (y :: l) -> p z = false).
      { intros z Hz. destruct (p z) eqn:Ez; [|reflexivity]. exfalso.
        assert (Hyz : ltb (key z) (key y) = false).
        { destruct Hz as [<- | Hz].
          - destruct (ltb (key y) (key y)) eqn:Eyy; [|reflexivity].
            now apply ltb_asym in Eyy as Eyy'; congruence.
          - rewrite List.Forall_forall in Hy. now apply Hy. }
        pose proof (ltb_negtrans _ _ _ Hyz (p_equal x z Ex Ez)) as Hc.
        congruence. }
      assert (Hnone : List.filter p (y :: l) = []).
      { clear - Hall. induction (y :: l) as [|z l' IH']; [reflexivity|].
        cbn [List.filter]. rewrite (Hall z) by now left.
        apply IH'. intros z' Hz'. apply Hall. now right. }
      cbn [List.filter] in Hnone. rewrite Hnone. reflexivity.
    + cbn [List.filter]. rewrite IH. now destruct (p y).
Qed.

Lemma sort_by_fold (l acc : list A) :
  StronglySorted (not_after ltb key) acc ->
  StronglySorted (not_after ltb key)
    (fold_left (fun sorted x => insert_by ltb key x sorted) l acc)
  /\ Permutation (acc ++ l)
       (fold_left (fun sorted x => insert_by ltb key x sorted) l acc)
  /\ List.filter p
       (fold_left (fun sorted x => insert_by ltb key x sorted) l acc)
     = List.filter p acc ++ List.filter p l.
Proof.
  revert acc. induction l as [|x l IH]; intros acc Hacc; cbn [fold_left].
  - cbn [List.filter]. rewrite !app_nil_r. auto.
  - destruct (IH (insert_by ltb key x acc) (insert_by_sorted x acc Hacc))
      as (H1 & H2 & H3).
    split; [exact H1|]. split.
    + rewrite <- H2. rewrite <- (insert_by_perm x acc). cbn [app].
      symmetry. apply Permutation_middle.
    + rewrite H3, insert_by_filter by exact Hacc. cbn [List.filter].
      rewrite <- app_assoc. now destruct (p x).
Qed.

Lemma sort_by_spec (l : list A) :
  StronglySorted (not_after ltb key) (sort_by ltb key l)
  /\ Permutation l (sort_by ltb key l)
  /\ List.filter p (sort_by ltb key l) = List.filter p l.
Proof.
  apply (sort_by_fold l []). constructor.
Qed.

End StableSort.

Section TicketOrder.
Import TicketAssignmentSystem Props.


Lemma key_ltb_true (a b : Z * Q) :
  key_ltb a b = true
  <-> (fst a < fst b)%Z \/ (fst a = fst b /\ snd a < snd b).
Proof.
  unfold key_ltb. destruct (Z.eqb_spec (fst a) (fst b)) as [E | E].
  - rewrite Qlt_bool_true. split; [auto|]. intros [H | [_ H]]; [lia | exact H].
  - rewrite Z.ltb_lt. split; [auto|]. intros [H | [H _]]; [exact H | lia].
Qed.

Lemma key_ltb_false (a b : Z * Q) : key_ltb a b = false <-> key_le b a.
Proof.
  unfold key_ltb, key_le. destruct (Z.eqb_spec (fst a) (fst b)) as [E | E].
  - rewrite Qlt_bool_false. split; [auto|]. intros [H | [_ H]]; [lia | exact H].
  - rewrite Z.ltb_ge. split; [intros H; left; lia|].
    intros [H | [H _]]; lia.
Qed.

Lemma key_ltb_asym (a b : Z * Q) : key_ltb a b = true -> key_ltb b a = false.
Proof.
  rewrite key_ltb_true, key_ltb_false. unfold key_le.
  intros [H | [H1 H2]]; [now left | right].
  split; [exact H1 | now apply Qlt_le_weak].
Qed.

Lemma key_le_trans (a b c : Z * Q) : key_le a b -> key_le b c -> key_le a c.
Proof.
  unfold key_le. intros [H1 | [H1 H1']] [H2 | [H2 H2']].
  - left. lia.
  - left. lia.
  - left. lia.
  - right. split; [lia | now apply Qle_trans with (snd b)].
Qed.

Lemma key_ltb_negtrans (a b c : Z * Q) :
  key_ltb b a = false -> key_ltb c b = false -> key_ltb c a = false.
Proof. rewrite !key_ltb_false. apply key_le_trans. Qed.



Lemma insert_by_map {A B K : Type} (ltb : K -> K -> bool) (key : B -> K)
    (g : A -> B) (x : A) (l : list A) :
  insert_by ltb key (g x) (map g l)
  = map g (insert_by ltb (fun a => key (g a)) x l).
Proof.
  induction l as [|y l IH]; [reflexivity|]. cbn [map insert_by].
  destruct (ltb (key (g x)) (key (g y))); [reflexivity|].
  cbn [map]. now rewrite IH.
Qed.

Lemma sort_by_map {A B K : Type} (ltb : K -> K -> bool) (key : B -> K)
    (g : A -> B) (l : list A) :
  sort_by ltb key (map g l) = map g (sort_by ltb (fun a => key (g a)) l).
Proof.
  unfold sort_by. change (@nil B) with (map g []).
  generalize (@nil A) as acc.
  induction l as [|x l IH]; intros acc; [reflexivity|].
  cbn [map fold_left]. now rewrite insert_by_map, IH.
Qed.

(** Classifying, sorting the pairs and dropping the classification is
    sorting the tickets by their keys. *)
Lemma prioritize_tickets_sort (tickets : list Ticket) :
  _prioritize_tickets tickets = sort_by key_ltb ticket_key tickets.
Proof.
  unfold _prioritize_tickets. rewrite sort_by_map, map_map.
  cbn [with_priority fst]. apply map_id.
Qed.


Lemma prioritize_tickets_perm (tickets : list Ticket) :
  Permutation tickets (_prioritize_tickets tickets).
Proof.
  rewrite prioritize_tickets_sort.
  apply (sort_by_spec key_ltb ticket_key key_ltb_asym key_ltb_negtrans
           (fun _ => false)). discriminate.
Qed.



End TicketOrder.

(** ** The choice of an agent in [_assign_single_ticket] *)

Section Choice.
Import TicketAssignmentSystem Props.
Variable ticket : Ticket.
Variable workloads : gmap string Z.

Let priority_result :=
  PriorityAnalyzer.analyze_priority (title ticket) (description ticket).
Let score := candidate_score ticket priority_result workloads.
Let best_of (agents : list Agent) : Best :=
  fold_left (consider ticket priority_result workloads) agents initial_best.

(** The record in terms of the loop result and the fallback. *)
Lemma assign_single_ticket_unfold (agents : list Agent) :
  _assign_single_ticket ticket agents workloads
  = {| assigned_ticket_id := ticket_id ticket;
       assigned_agent_id := fst (choose agents (best_of agents));
       rationale := snd (choose agents (best_of agents));
       priority_level :=
         level_name (PriorityAnalyzer.priority_level priority_result);
       priority_score := PriorityAnalyzer.priority_score priority_result;
       skill_match_score := best_skill_score (best_of agents);
       workload_factor := best_workload_factor (best_of agents);
       final_score := best_score (best_of agents) |}.
Proof.
  unfold _assign_single_ticket. fold priority_result.
  fold (best_of agents). now destruct (choose agents (best_of agents)).
Qed.

Lemma best_of_snoc (agents : list Agent) (agent : Agent) :
  best_of (agents ++ [agent])
  = consider ticket priority_result workloads (best_of agents) agent.
Proof. unfold best_of. now rewrite fold_left_app. Qed.

Lemma best_of_found (agents : list Agent) :
  found ticket workloads agents (best_of agents).
Proof.
  unfold found. fold priority_result. fold score.
  induction agents as [|agent agents IH] using rev_ind.
  - left. split; [reflexivity|]. intros c [].
  - rewrite best_of_snoc. unfold consider.
    destruct (is_available agent) eqn:Eav; cbn [negb].
    + fold (score agent).
      destruct (Qgt_bool (score agent) (best_score (best_of agents))) eqn:Egt.
      * apply Qgt_bool_true in Egt. right.
        exists (length agents), agent.
        split; [now apply list_lookup_middle|]. split; [exact Eav|].
        split; [reflexivity|].
        destruct IH as [[Hb Hall] | (i & a & Hi & Ha & Hb & Hgt & Hall)];
          rewrite Hb in Egt; cbn [best_score initial_best] in Egt.
        -- split; [exact Egt|]. intros j c Hj Hc.
           apply lookup_app_Some in Hj.
           destruct Hj as [Hj | [Hlen Hj]].
           ++ assert (score c <= -1).
              { apply Hall; [|exact Hc].
                apply list_elem_of_In, list_elem_of_lookup. eauto. }
              split; [lra | intros _; lra].
           ++ apply list_lookup_singleton_Some in Hj. destruct Hj as [Hj ->].
              split; [apply Qle_refl | lia].
        -- split; [lra|]. intros j c Hj Hc.
           apply lookup_app_Some in Hj.
           destruct Hj as [Hj | [Hlen Hj]].
           ++ destruct (Hall j c Hj Hc) as [Hle _].
              split; [lra | intros _; lra].
           ++ apply list_lookup_singleton_Some in Hj. destruct Hj as [Hj ->].
              split; [apply Qle_refl | lia].
      * apply Qgt_bool_false in Egt.
        destruct IH as [[Hb Hall] | (i & a & Hi & Ha & Hb & Hgt & Hall)].
        -- left. split; [exact Hb|]. intros c Hc Hav.
           apply in_app_or in Hc. destruct Hc as [Hc | [<- | []]].
           ++ now apply Hall.
           ++ rewrite Hb in Egt. exact Egt.
        -- right. exists i, a.
           split; [now apply lookup_app_l_Some|]. split; [exact Ha|].
           split; [exact Hb|]. split; [exact Hgt|].
           rewrite Hb in Egt. cbn [best_score] in Egt.
           intros j c Hj Hc. apply lookup_app_Some in Hj.
           destruct Hj as [Hj | [Hlen Hj]]; [now apply Hall|].
           apply list_lookup_singleton_Some in Hj. destruct Hj as [Hj ->].
           split; [exact Egt|]. intros Hlt.
           apply lookup_lt_Some in Hi. lia.
    + destruct IH as [[Hb Hall] | (i & a & Hi & Ha & Hb & Hgt & Hall)].
      * left. split; [exact Hb|]. intros c Hc Hav.
        apply in_app_or in Hc. destruct Hc as [Hc | [<- | []]].
        -- now apply Hall.
        -- congruence.
      * right. exists i, a.
        split; [now apply lookup_app_l_Some|]. split; [exact Ha|].
        split; [exact Hb|]. split; [exact Hgt|].
        intros j c Hj Hc. apply lookup_app_Some in Hj.
        destruct Hj as [Hj | [Hlen Hj]]; [now apply Hall|].
        apply list_lookup_singleton_Some in Hj. destruct Hj as [Hj ->].
        congruence.
Qed.

End Choice.

Section SingleTicket.
Import TicketAssignmentSystem Props.

Lemma none_available_filter (agents : list Agent) :
  none_available agents -> List.filter is_available agents = [].
Proof.
  induction 1 as [|a agents Ha _ IH]; [reflexivity|].
  cbn [List.filter]. now rewrite Ha.
Qed.

Lemma filter_none_available (agents : list Agent) :
  List.filter is_available agents = [] -> none_available agents.
Proof.
  induction agents as [|a agents IH]; [constructor|].
  cbn [List.filter]. destruct (is_available a) eqn:E; [discriminate|].
  intros H. constructor; [exact E | now apply IH].
Qed.

(** The loop skips every agent when none is available. *)
Lemma none_available_loop (ticket : Ticket)
    (priority_result : PriorityAnalyzer.PriorityResult)
    (workloads : gmap string Z) (agents : list Agent) (best : Best) :
  none_available agents ->
  fold_left (consider ticket priority_result workloads) agents best = best.
Proof.
  intros H. revert best. induction H as [|a agents Ha _ IH]; intros best.
  - reflexivity.
  - cbn [fold_left]. unfold consider at 2. rewrite Ha. cbn [negb].
    apply IH.
Qed.

(** The record of the emergency fallback. *)
Lemma assign_single_ticket_fallback (ticket : Ticket) (agents : list Agent)
    (workloads : gmap string Z) :
  none_available agents ->
  _assign_single_ticket ticket agents workloads
  = {| assigned_ticket_id := ticket_id ticket;
       assigned_agent_id :=
         match agents with
         | agent :: _ => agent_id agent
         | [] => "agent_001"
         end;
       rationale := "Emergency assignment - no available agents found.";
       priority_level :=
         level_name
           (PriorityAnalyzer.priority_level
              (PriorityAnalyzer.analyze_priority (title ticket)
                 (description ticket)));
       priority_score :=
         PriorityAnalyzer.priority_score
           (PriorityAnalyzer.analyze_priority (title ticket)
              (description ticket));
       skill_match_score := 0;
       workload_factor := 0;
       final_score := -1 |}.
Proof.
  intros H. rewrite assign_single_ticket_unfold.
  rewrite none_available_loop by exact H.
  unfold choose. cbn [best_agent initial_best].
  rewrite none_available_filter by exact H. reflexivity.
Qed.

(** The agent of a record is an available agent of the list, unless no
    agent is available. *)
Lemma assigned_agent_available (ticket : Ticket) (agents : list Agent)
    (workloads : gmap string Z) :
  none_available agents
  \/ exists a,
       In a agents /\ is_available a = true
       /\ assigned_agent_id (_assign_single_ticket ticket agents workloads)
          = agent_id a.
Proof.
  rewrite assign_single_ticket_unfold. cbn [assigned_agent_id].
  destruct (best_of_found ticket workloads agents)
    as [[Hb _] | (i & a & Hi & Ha & Hb & _)]; rewrite Hb; unfold choose.
  - cbn [best_agent initial_best].
    destruct (List.filter is_available agents) as [|a l] eqn:E.
    + left. now apply filter_none_available.
    + right. exists a.
      assert (Hin : In a (List.filter is_available agents))
        by (rewrite E; now left).
      apply filter_In in Hin. destruct Hin as [Hin Hav]. auto.
  - cbn [best_agent fst]. right. exists a.
    split; [|auto]. apply list_elem_of_In, list_elem_of_lookup. eauto.
Qed.

(** With a non-empty list the agent of a record is always one of the
    list. *)
Lemma assigned_agent_in_list (ticket : Ticket) (agents : list Agent)
    (workloads : gmap string Z) :
  agents <> [] ->
  exists a,
    In a agents
    /\ assigned_agent_id (_assign_single_ticket ticket agents workloads)
       = agent_id a.
Proof.
  intros Hne.
  destruct (assigned_agent_available ticket agents workloads)
    as [Hnone | (a & Hin & _ & Hid)].
  - rewrite assign_single_ticket_fallback by exact Hnone.
    destruct agents as [|a agents]; [congruence|].
    exists a. split; [now left | reflexivity].
  - now exists a.
Qed.

Lemma valid_status_available (agent : Agent) :
  valid_status agent -> is_available agent = true ->
  availability_status agent = "Available".
Proof.
  unfold valid_status, is_available.
  intros [H | [H | [H | [H | []]]]]; rewrite <- H; [reflexivity| | |];
    vm_compute; discriminate.
Qed.

Lemma workload_factor_of_formula (load : Z) :
  workload_factor_of load == Qmax 0 ((8 - inject_Z load) / 8).
Proof.
  unfold workload_factor_of. apply Q.max_compat; [reflexivity|].
  unfold Zminus. rewrite inject_Z_plus, inject_Z_opp. reflexivity.
Qed.

Lemma workload_factor_of_nonneg (load : Z) : 0 <= workload_factor_of load.
Proof. unfold workload_factor_of. apply Q.le_max_l. Qed.





End SingleTicket.

Section Allocation.
Import TicketAssignmentSystem Props.


(** C10. When no agent of the list passes the case-insensitive
    availability test, the record of a ticket keeps the initial values
    [final_score = -1], [skill_match_score = 0] and [workload_factor = 0];
    so does every record of a run over such a list. *)
Theorem no_available_agent_sentinels (agents : list Agent) :
  none_available agents ->
  (forall ticket workloads,
     let r := _assign_single_ticket ticket agents workloads in
     final_score r = -1 /\ skill_match_score r = 0 /\ workload_factor r = 0)
  /\ (forall tickets result,
        assign_tickets {| agents := agents; tickets := tickets |}
        = Returns result ->
        Forall (fun r => final_score r = -1 /\ skill_match_score r = 0
                         /\ workload_factor r = 0) result).
Proof.
  intros Hnone.
  assert (Hone : forall ticket workloads,
             let r := _assign_single_ticket ticket agents workloads in
             final_score r = -1 /\ skill_match_score r = 0
             /\ workload_factor r = 0).
  { intros ticket workloads r. unfold r.
    rewrite assign_single_ticket_fallback by exact Hnone. auto. }
  split; [exact Hone|].
  intros tickets result. unfold assign_tickets.
  cbn [TicketAssignmentSystem.agents TicketAssignmentSystem.tickets].
  generalize (_prioritize_tickets tickets) as pending.
  generalize (initial_workloads agents) as workloads.
  assert (Hdone : Forall (fun r => final_score r = -1
                                   /\ skill_match_score r = 0
                                   /\ workload_factor r = 0)
                    (@nil AgentAssignment)) by constructor.
  revert Hdone. generalize (@nil AgentAssignment) as done.
  intros done Hdone workloads pending. revert workloads done Hdone.
  induction pending as [|ticket pending IH]; intros workloads done Hdone;
    cbn [assign_loop].
  - now intros [= <-].
  - destruct (increment workloads _) as [workloads' | e]; [|discriminate].
    apply IH. apply Forall_app. split; [exact Hdone|].
    constructor; [apply Hone | constructor].
Qed.

End Allocation.

(** ** The loop of [assign_tickets] *)

Section Loop.
Import TicketAssignmentSystem Props.

(** A property of every single record holds for the records of a run. *)
Lemma assign_loop_Forall (P : AgentAssignment -> Prop) (agents : list Agent) :
  (forall ticket workloads,
     P (_assign_single_ticket ticket agents workloads)) ->
  forall pending workloads done result,
    Forall P done ->
    assign_loop agents pending workloads done = Returns result ->
    Forall P result.
Proof.
  intros HP pending.
  induction pending as [|ticket pending IH]; intros workloads done result Hd;
    cbn [assign_loop].
  - now intros [= <-].
  - destruct (increment workloads _) as [workloads' | e]; [|discriminate].
    apply IH. apply Forall_app. split; [exact Hd|].
    constructor; [apply HP | constructor].
Qed.

Lemma increment_Returns (workloads workloads' : gmap string Z)
    (key : string) :
  increment workloads key = Returns workloads'
  <-> exists n,
        workloads !! key = Some n
        /\ workloads' = <[key := (n + 1)%Z]> workloads.
Proof.
  unfold increment. destruct (workloads !! key) as [n|]; split.
  - intros [= <-]. now exists n.
  - intros (n' & [= <-] & ->). reflexivity.
  - discriminate.
  - intros (n' & H & _). discriminate.
Qed.

Lemma increment_Raises (workloads : gmap string Z) (key : string)
    (e : PyError) :
  increment workloads key = Raises e
  <-> workloads !! key = None /\ e = KeyError key.
Proof.
  unfold increment. destruct (workloads !! key) as [n|]; split.
  - discriminate.
  - intros [H _]. discriminate.
  - intros [= <-]. auto.
  - intros [_ ->]. reflexivity.
Qed.

Lemma find_app {A : Type} (f : A -> bool) (l1 l2 : list A) :
  find f (l1 ++ l2)
  = match find f l1 with
    | Some x => Some x
    | None => find f l2
    end.
Proof.
  induction l1 as [|x l1 IH]; [reflexivity|]. cbn [app find].
  now destruct (f x).
Qed.

Lemma last_with_id_cons (agent : Agent) (agents : list Agent) (id : string) :
  last_with_id (agent :: agents) id
  = match last_with_id agents id with
    | Some a => Some a
    | None => if String.eqb (agent_id agent) id then Some agent else None
    end.
Proof.
  unfold last_with_id. cbn [rev]. rewrite find_app. cbn [find].
  reflexivity.
Qed.

Lemma workloads_fold_lookup (agents : list Agent) (m : gmap string Z)
    (id : string) :
  fold_left (fun m agent => <[agent_id agent := current_load agent]> m)
    agents m !! id
  = match last_with_id agents id with
    | Some a => Some (current_load a)
    | None => m !! id
    end.
Proof.
  revert m. induction agents as [|agent agents IH]; intros m.
  - reflexivity.
  - cbn [fold_left]. rewrite IH, last_with_id_cons.
    destruct (last_with_id agents id); [reflexivity|].
    destruct (String.eqb_spec (agent_id agent) id) as [-> | Hne].
    + apply lookup_insert_eq.
    + now apply lookup_insert_ne.
Qed.

(** The counter of an identifier starts at the [current_load] of the last
    agent that carries it. *)
Lemma initial_workloads_lookup (agents : list Agent) (id : string) :
  initial_workloads agents !! id
  = current_load <$> last_with_id agents id.
Proof.
  unfold initial_workloads. rewrite workloads_fold_lookup.
  now destruct (last_with_id agents id).
Qed.

Lemma last_with_id_Some (agents : list Agent) (agent : Agent) :
  In agent agents -> is_Some (last_with_id agents (agent_id agent)).
Proof.
  induction agents as [|a agents IH]; [intros []|].
  rewrite last_with_id_cons. intros [-> | Hin].
  - destruct (last_with_id agents (agent_id agent)); [eauto|].
    rewrite String.eqb_refl. eauto.
  - destruct (IH Hin) as [b Hb]. rewrite Hb. eauto.
Qed.

Lemma initial_workloads_covers (agents : list Agent) :
  covers agents (initial_workloads agents).
Proof.
  intros agent Hin. rewrite initial_workloads_lookup.
  destruct (last_with_id_Some agents agent Hin) as [b Hb].
  rewrite Hb. eauto.
Qed.

Lemma covers_insert (agents : list Agent) (workloads : gmap string Z)
    (key : string) (n : Z) :
  covers agents workloads -> covers agents (<[key := n]> workloads).
Proof.
  intros H agent Hin. destruct (decide (key = agent_id agent)) as [-> | Hne].
  - rewrite lookup_insert_eq. eauto.
  - rewrite lookup_insert_ne by exact Hne. now apply H.
Qed.

(** With a non-empty list of agents the loop returns, with one more record
    per pending ticket. *)
Lemma assign_loop_returns (agents : list Agent) :
  agents <> [] ->
  forall pending workloads done,
    covers agents workloads ->
    exists result,
      assign_loop agents pending workloads done = Returns result
      /\ length result = (length done + length pending)%nat.
Proof.
  intros Hne pending.
  induction pending as [|ticket pending IH]; intros workloads done Hcov;
    cbn [assign_loop].
  - exists done. split; [reflexivity | cbn; lia].
  - destruct (assigned_agent_in_list ticket agents workloads Hne)
      as (a & Hin & Hid).
    destruct (Hcov a Hin) as [n Hn]. unfold increment. rewrite Hid, Hn.
    destruct (IH (<[agent_id a := (n + 1)%Z]> workloads)
                (done ++ [_assign_single_ticket ticket agents workloads]))
      as (result & Hr & Hlen).
    { now apply covers_insert. }
    exists result. split; [exact Hr|].
    rewrite Hlen, length_app. cbn [length]. lia.
Qed.

Lemma prioritize_tickets_length (tickets : list Ticket) :
  length (_prioritize_tickets tickets) = length tickets.
Proof.
  symmetry. apply Permutation_length.
  apply (prioritize_tickets_perm tickets).
Qed.

End Loop.

(** ** Runs of [assign_tickets] *)

Section Runs.
Import TicketAssignmentSystem Props Run.


Lemma terminal_no_step (c c' : Config) : terminal c -> ~ step c c'.
Proof. intros Ht Hs. inversion Hs; subst; exact Ht. Qed.






(** An iteration that commits: the record of the first pending ticket is
    appended and the counter of its agent grows by one. *)
Lemma step_running (s s' : State) :
  step (Running s) (Running s') ->
  exists ticket n,
    pending s = ticket :: pending s'
    /\ caller_agents s' = caller_agents s
    /\ assignments s'
       = assignments s
         ++ [_assign_single_ticket ticket (caller_agents s)
               (agent_workloads s)]
    /\ agent_workloads s
       !! assigned_agent_id
            (_assign_single_ticket ticket (caller_agents s)
               (agent_workloads s))
       = Some n
    /\ agent_workloads s'
       = <[assigned_agent_id
             (_assign_single_ticket ticket (caller_agents s)
                (agent_workloads s)) := (n + 1)%Z]> (agent_workloads s).
Proof.
  intros H. inversion H as [agents ticket rest w w' done Hinc | |]; subst.
  apply increment_Returns in Hinc. destruct Hinc as (n & Hn & ->).
  exists ticket, n. cbn. auto.
Qed.



End Runs.

Section RunProperties.
Import TicketAssignmentSystem Props Run.

(** C1. The empty agent list with at least one ticket: the record of the
    first ticket names the placeholder agent "agent_001" and flags the
    emergency in its rationale, but the workload dictionary has no entry
    for the placeholder, and [assign_tickets] raises [KeyError] instead of
    returning a record per ticket. *)
Theorem no_agents_raises_KeyError (ticket : Ticket) (rest : list Ticket) :
  (forall t workloads,
     assigned_agent_id (_assign_single_ticket t [] workloads) = "agent_001"
     /\ rationale (_assign_single_ticket t [] workloads)
        = "Emergency assignment - no available agents found.")
  /\ assign_tickets {| agents := []; tickets := ticket :: rest |}
     = Raises (KeyError "agent_001").
Proof.
  split.
  - intros t workloads.
    rewrite assign_single_ticket_fallback by constructor. auto.
  - unfold assign_tickets.
    cbn [TicketAssignmentSystem.agents TicketAssignmentSystem.tickets].
    pose proof (prioritize_tickets_length (ticket :: rest)) as Hlen.
    destruct (_prioritize_tickets (ticket :: rest)) as [|t pending];
      [discriminate Hlen|].
    cbn [assign_loop].
    rewrite assign_single_ticket_fallback by constructor.
    reflexivity.
Qed.

(** C7. Every record of a run that returns names an agent of the list that
    passes the availability test of the allocator, which for a status of
    the data model means that the status is "Available"; the only
    exception is the fallback taken when no agent of the list is
    available. The statuses do not change during the run. *)
Theorem records_name_available_agents (dataset : Dataset)
    (result : list AgentAssignment) :
  assign_tickets dataset = Returns result ->
  Forall
    (fun r =>
       none_available (agents dataset)
       \/ exists a,
            In a (agents dataset)
            /\ assigned_agent_id r = agent_id a
            /\ is_available a = true
            /\ (valid_status a -> availability_status a = "Available"))
    result.
Proof.
  unfold assign_tickets.
  apply assign_loop_Forall; [|constructor].
  intros ticket workloads.
  destruct (assigned_agent_available ticket (agents dataset) workloads)
    as [Hnone | (a & Hin & Hav & Hid)]; [now left | right].
  exists a. repeat split; try assumption.
  intros Hvalid. now apply valid_status_available.
Qed.



End RunProperties.

(** ** The theorems on sample data *)

Section Samples.
Import TicketAssignmentSystem Props Examples.


Lemma calculate_skill_match_average_witness :
  Forall (fun entry => (1 <= snd entry <= 10)%Z) (skills alice)
  /\ 0 <= _calculate_skill_match security_ticket alice <= 1
  /\ _calculate_skill_match security_ticket alice
     == average_contribution (skill_text security_ticket) (skills alice).
Proof.
  assert (H : Forall (fun entry => (1 <= snd entry <= 10)%Z) (skills alice))
    by (repeat constructor; cbn; lia).
  split; [exact H|].
  pose proof (calculate_skill_match_average security_ticket alice H)
    as (H1 & _ & H3 & _).
  split; [exact H1|]. apply H3. vm_compute. discriminate.
Defined.


Lemma records_name_available_agents_witness :
  assign_tickets office = Returns (records (assign_tickets office))
  /\ Forall
       (fun r =>
          none_available (agents office)
          \/ exists a,
               In a (agents office)
               /\ assigned_agent_id r = agent_id a
               /\ is_available a = true
               /\ (valid_status a -> availability_status a = "Available"))
       (records (assign_tickets office)).
Proof.
  assert (H : assign_tickets office
              = Returns (records (assign_tickets office)))
    by (vm_compute; reflexivity).
  split; [exact H|].
  exact (records_name_available_agents office _ H).
Defined.

Lemma no_available_agent_sentinels_witness :
  none_available (agents night_shift)
  /\ final_score
       (_assign_single_ticket printer_ticket (agents night_shift)
          (initial_workloads (agents night_shift)))
     = -1.
Proof.
  assert (H : none_available (agents night_shift))
    by (repeat constructor).
  split; [exact H|].
  apply (no_available_agent_sentinels (agents night_shift) H).
Defined.

(** The third scenario of the specification: one agent with
    [Network_Security] at level 9 and a ticket about a security breach. *)
Example scenario_security_breach :
  map assigned_agent_id
    (records
       (assign_tickets
          {| agents := [alice]; tickets := [security_ticket] |}))
  = ["agent_001"]
  /\ 0.5 < _calculate_skill_match security_ticket alice.
Proof. split; vm_compute; reflexivity. Qed.

(** Load balancing: two equal agents and two copies of one ticket; the
    second copy goes to the other agent because the first commit raised
    the counter of the first agent. *)
Example load_balancing :
  map assigned_agent_id
    (records
       (assign_tickets
          {| agents :=
               [alice;
                {| agent_id := "agent_004"; name := "Dana";
                   skills := skills alice;
                   availability_status := "Available";
                   experience_level := 10; current_load := 0 |}];
             tickets := [security_ticket; security_ticket] |}))
  = ["agent_001"; "agent_004"].
Proof. vm_compute. reflexivity. Qed.

(** The fourth scenario: no available agent, one ticket. *)
Example scenario_no_available_agent :
  map (fun r => (assigned_agent_id r, rationale r))
    (records (assign_tickets night_shift))
  = [("agent_003", "Emergency assignment - no available agents found.")].
Proof. vm_compute. reflexivity. Qed.

End Samples.

(** * Further properties of the code *)

(** ** Whole-word search *)

Section Search.
Import Props2.

Lemma str_app_cons (x : ascii) (a b : string) :
  String x a +:+ b = String x (a +:+ b).
Proof. reflexivity. Qed.

Lemma str_app_nil_l (a : string) : "" +:+ a = a.
Proof. reflexivity. Qed.

Lemma str_app_assoc (a b c : string) : (a +:+ b) +:+ c = a +:+ (b +:+ c).
Proof.
  induction a as [|x a IH]; [reflexivity|].
  rewrite !str_app_cons. now rewrite IH.
Qed.

Lemma str_app_nil_r (a : string) : a +:+ "" = a.
Proof.
  induction a as [|x a IH]; [reflexivity|].
  rewrite str_app_cons. now rewrite IH.
Qed.









(** ** Letter case *)

Lemma lower_char_idempotent (c : ascii) :
  Text.lower_char (Text.lower_char c) = Text.lower_char c.
Proof. destruct c as [[] [] [] [] [] [] [] []]; reflexivity. Qed.

Lemma lower_idempotent (s : string) : Text.lower (Text.lower s) = Text.lower s.
Proof.
  induction s as [|c s IH]; [reflexivity|]. cbn [Text.lower].
  now rewrite lower_char_idempotent, IH.
Qed.

Lemma lower_app (a b : string) :
  Text.lower (a +:+ b) = Text.lower a +:+ Text.lower b.
Proof.
  induction a as [|c a IH]; [reflexivity|].
  rewrite str_app_cons. cbn [Text.lower]. rewrite str_app_cons.
  now rewrite IH.
Qed.

Lemma full_text_lower (title description : string) :
  PriorityAnalyzer.full_text title description
  = Text.lower title +:+ " " +:+ Text.lower description.
Proof.
  unfold PriorityAnalyzer.full_text. now rewrite !lower_app.
Qed.

(** X2. Classification and skill matching ignore the case of ASCII
    letters: two tickets whose titles and descriptions agree after
    lowercasing get the same priority result and, for every agent, the
    same skill score. *)
Theorem classification_ignores_case
    (ticket1 ticket2 : TicketAssignmentSystem.Ticket) :
  Text.lower (TicketAssignmentSystem.title ticket1)
  = Text.lower (TicketAssignmentSystem.title ticket2) ->
  Text.lower (TicketAssignmentSystem.description ticket1)
  = Text.lower (TicketAssignmentSystem.description ticket2) ->
  PriorityAnalyzer.analyze_priority
    (TicketAssignmentSystem.title ticket1)
    (TicketAssignmentSystem.description ticket1)
  = PriorityAnalyzer.analyze_priority
      (TicketAssignmentSystem.title ticket2)
      (TicketAssignmentSystem.description ticket2)
  /\ forall agent,
       TicketAssignmentSystem._calculate_skill_match ticket1 agent
       = TicketAssignmentSystem._calculate_skill_match ticket2 agent.
Proof.
  intros Ht Hd. split.
  - unfold PriorityAnalyzer.analyze_priority.
    now rewrite !full_text_lower, Ht, Hd.
  - intros agent. unfold TicketAssignmentSystem._calculate_skill_match,
      TicketAssignmentSystem.skill_text.
    now rewrite Ht, Hd.
Qed.

End Search.

(** ** Matched keywords and the score *)

Section MatchedKeywords.
Import PriorityAnalyzer Props Props2.

Lemma scan_levels_matched (text : string) (c h m lo : list (string * Q)) :
  snd (fold_left (scan_level text)
         [(CRITICAL, c); (HIGH, h); (MEDIUM, m); (LOW, lo)]
         (fun _ => 0.0, []))
  = map fst (List.filter (matches text) c)
    ++ map fst (List.filter (matches text) h)
    ++ map fst (List.filter (matches text) m)
    ++ map fst (List.filter (matches text) lo).
Proof.
  cbn [fold_left]. unfold scan_level. cbn [fst snd].
  rewrite !scan_table_matched. cbn [snd app].
  now rewrite <- !app_assoc.
Qed.

Lemma analyze_priority_matched (title description : string) :
  matched_keywords (analyze_priority title description)
  = snd (scan_all (full_text title description)).
Proof. unfold analyze_priority. reflexivity. Qed.

Lemma Qsum_positive (l : list Q) :
  Forall (fun x => 0 < x) l -> l <> [] -> 0 < Qsum l.
Proof.
  intros H Hne. destruct H as [|x l Hx Hl]; [congruence|].
  rewrite Qsum_cons.
  assert (0 <= Qsum l).
  { apply Qsum_nonneg. eapply List.Forall_impl; [|exact Hl].
    intros y Hy. now apply Qlt_le_weak. }
  lra.
Qed.

Lemma level_hits_sum (text : string) (level : PriorityLevel) :
  (level_hits text level = [] -> keyword_weight_sum text level == 0)
  /\ (level_hits text level <> [] -> 0 < keyword_weight_sum text level).
Proof.
  unfold level_hits, keyword_weight_sum.
  pose proof (Forall_filter_weak _ (matches text) _
                (keyword_weights_positive level)) as Hpos.
  destruct (List.filter (matches text) (keyword_table level))
    as [|e hits]; split; intros H.
  - reflexivity.
  - now contradict H.
  - discriminate H.
  - apply Qsum_positive; [|discriminate].
    clear - Hpos. induction Hpos; constructor; auto.
Qed.

(** X3. The matched keywords of a result are the table keywords that occur
    in the text, level by level in the order CRITICAL, HIGH, MEDIUM, LOW
    and in table order within a level; a keyword that occurs is never
    dropped and nothing else is recorded. The score is never negative,
    and it is 0 exactly when no keyword matched, in which case the level
    is MEDIUM. *)
Theorem matched_keywords_and_score (title description : string) :
  let text := full_text title description in
  let r := analyze_priority title description in
  matched_keywords r
  = level_hits text CRITICAL ++ level_hits text HIGH
    ++ level_hits text MEDIUM ++ level_hits text LOW
  /\ 0 <= priority_score r
  /\ (priority_score r == 0 <-> matched_keywords r = [])
  /\ (matched_keywords r = [] -> priority_level r = MEDIUM).
Proof.
  intros text r.
  assert (Hm : matched_keywords r
               = level_hits text CRITICAL ++ level_hits text HIGH
                 ++ level_hits text MEDIUM ++ level_hits text LOW).
  { unfold r. rewrite analyze_priority_matched. fold text.
    unfold scan_all, urgency_keywords. apply scan_levels_matched. }
  pose proof (final_scores_product text) as Hfs.
  pose proof (winning_priority_spec (final_scores text)) as [Hzero Hmax].
  pose proof (max_score_ge (final_scores text)) as Hge.
  pose proof (impact_multiplier_ge_1 text) as Hmul.
  destruct (max_score_attained (final_scores text)) as [lm Hlm].
  assert (Hscore : priority_score r
                   = final_scores text (priority_level r)).
  { unfold r. now rewrite analyze_priority_score, analyze_priority_level. }
  assert (Hlevel : priority_level r
                   = _determine_winning_priority (final_scores text)).
  { unfold r. now rewrite analyze_priority_level. }
  assert (Hnone : matched_keywords r = [] ->
                  forall l, final_scores text l == 0).
  { intros E l. rewrite E in Hm. symmetry in Hm.
    apply app_eq_nil in Hm. destruct Hm as [H1 Hm].
    apply app_eq_nil in Hm. destruct Hm as [H2 Hm].
    apply app_eq_nil in Hm. destruct Hm as [H3 H4].
    rewrite Hfs.
    assert (Hl : keyword_weight_sum text l == 0)
      by (destruct l; now apply level_hits_sum).
    rewrite Hl. apply Qmult_0_l. }
  split; [exact Hm|]. split; [|split].
  - rewrite Hscore. apply final_scores_nonneg.
  - split.
    + intros Hz.
      destruct (matched_keywords r) as [|kw kws] eqn:E; [reflexivity|].
      exfalso.
      assert (Hsome : exists l, 0 < final_scores text l).
      { assert (Hl : exists l, level_hits text l <> []).
        { destruct (level_hits text CRITICAL) eqn:E1;
            [|exists CRITICAL; congruence].
          destruct (level_hits text HIGH) eqn:E2;
            [|exists HIGH; congruence].
          destruct (level_hits text MEDIUM) eqn:E3;
            [|exists MEDIUM; congruence].
          destruct (level_hits text LOW) eqn:E4;
            [|exists LOW; congruence].
          discriminate Hm. }
        destruct Hl as [l Hl]. exists l. rewrite Hfs.
        apply level_hits_sum in Hl.
        apply Qmult_lt_0_compat; [exact Hl | lra]. }
      destruct Hsome as [l Hl]. specialize (Hge l).
      destruct Hmax as [Hw _].
      { intros E0. rewrite E0 in Hge. lra. }
      rewrite Hscore, Hlevel, Hw in Hz. lra.
    + intros E. rewrite Hscore. now apply Hnone.
  - intros E. rewrite Hlevel. apply Hzero. rewrite Hlm. now apply Hnone.
Qed.

End MatchedKeywords.

(** ** Complete runs *)

Section CompleteRuns.
Import TicketAssignmentSystem Props Props2.

(** With a non-empty agent list the run returns as many records as there
    are tickets. *)
Lemma assign_tickets_returns (dataset : Dataset) :
  agents dataset <> [] ->
  exists result,
    assign_tickets dataset = Returns result
    /\ length result = length (tickets dataset).
Proof.
  intros Hne. unfold assign_tickets.
  destruct (assign_loop_returns (agents dataset) Hne
              (_prioritize_tickets (tickets dataset))
              (initial_workloads (agents dataset)) []
              (initial_workloads_covers (agents dataset)))
    as (result & Hr & Hlen).
  exists result. split; [exact Hr|].
  rewrite Hlen. cbn [length]. apply prioritize_tickets_length.
Qed.


(** X5. With a non-empty agent list in which no agent is available the run
    returns one record per ticket; every record names the first agent of
    the list and carries the emergency rationale. *)
Theorem none_available_run (first : Agent) (others : list Agent)
    (tickets : list Ticket) :
  none_available (first :: others) ->
  exists result,
    assign_tickets {| agents := first :: others; tickets := tickets |}
    = Returns result
    /\ length result = length tickets
    /\ Forall
         (fun r =>
            assigned_agent_id r = agent_id first
            /\ rationale r = emergency_rationale)
         result.
Proof.
  intros Hnone.
  destruct (assign_tickets_returns
              {| agents := first :: others; tickets := tickets |})
    as (result & Hr & Hlen); [discriminate|].
  exists result. split; [exact Hr|]. split; [exact Hlen|].
  unfold assign_tickets in Hr.
  eapply assign_loop_Forall; [|constructor|exact Hr].
  intros ticket workloads. cbn [TicketAssignmentSystem.agents].
  rewrite assign_single_ticket_fallback by exact Hnone. auto.
Qed.

(** ** The rationale of the fallback *)

(** X6. The fallback shows in the rationale: the record of a ticket
    carries the emergency rationale exactly when no agent of the list is
    available; otherwise the rationale begins with "Assigned to". *)
Theorem emergency_rationale_iff_none_available (ticket : Ticket)
    (agents : list Agent) (workloads : gmap string Z) :
  let r := _assign_single_ticket ticket agents workloads in
  (rationale r = emergency_rationale <-> none_available agents)
  /\ (~ none_available agents ->
      exists rest, rationale r = "Assigned to " +:+ rest).
Proof.
  intros r.
  assert (Hcases : none_available agents
                   \/ exists rest, rationale r = "Assigned to " +:+ rest).
  { unfold r. rewrite assign_single_ticket_unfold. cbn [rationale].
    destruct (best_of_found ticket workloads agents)
      as [[Hb _] | (i & a & Hi & Ha & Hb & _)]; rewrite Hb; unfold choose.
    - cbn [best_agent initial_best].
      destruct (List.filter is_available agents) as [|a l] eqn:E.
      + left. now apply filter_none_available.
      + right. cbn [snd]. eexists. reflexivity.
    - cbn [best_agent best_rationale snd]. right.
      unfold _generate_assignment_rationale, join_words. cbn [app].
      set (tail := (_ ++ _ ++ _ ++ _) : list string).
      destruct tail as [|s tail]; cbn [String.concat];
        rewrite !str_app_assoc; eexists; reflexivity. }
  split.
  - split.
    + intros E. destruct Hcases as [H | [rest H]]; [exact H|].
      rewrite H in E. discriminate E.
    + intros H. unfold r.
      now rewrite assign_single_ticket_fallback by exact H.
  - intros Hn. destruct Hcases as [H | H]; [contradiction | exact H].
Qed.

(** ** One commit and the score *)

(** X7. Load balancing: committing a ticket to an agent whose counter [n]
    is below the saturation load 8 lowers that agent's score for a ticket
    by exactly 0.25/8; from 8 on the score no longer changes; and the
    scores of agents with another identifier are untouched. *)
Theorem commit_lowers_score (ticket : Ticket)
    (priority_result : PriorityAnalyzer.PriorityResult)
    (workloads : gmap string Z) (agent : Agent) (n : Z) :
  workloads !! agent_id agent = Some n ->
  let workloads' := <[agent_id agent := (n + 1)%Z]> workloads in
  ((0 <= n < 8)%Z ->
   candidate_score ticket priority_result workloads' agent
   == candidate_score ticket priority_result workloads agent - 0.25 / 8)
  /\ ((8 <= n)%Z ->
      candidate_score ticket priority_result workloads' agent
      == candidate_score ticket priority_result workloads agent)
  /\ (forall other,
        agent_id other <> agent_id agent ->
        candidate_score ticket priority_result workloads' other
        = candidate_score ticket priority_result workloads other).
Proof.
  intros Hn workloads'.
  assert (Hl : load_of workloads agent = n)
    by (unfold load_of; now rewrite Hn).
  assert (Hl' : load_of workloads' agent = (n + 1)%Z)
    by (unfold load_of, workloads'; now rewrite lookup_insert_eq).
  assert (Hwf : forall m, (0 <= m <= 8)%Z ->
                  workload_factor_of m == (8 - inject_Z m) / 8).
  { intros m Hm. rewrite workload_factor_of_formula. apply Q.max_r.
    apply Qle_shift_div_l; [reflexivity|]. rewrite Qmult_0_l.
    assert (inject_Z m <= inject_Z 8) by (rewrite <- Zle_Qle; lia).
    change (inject_Z 8) with 8 in *. lra. }
  assert (Hsat : forall m, (8 <= m)%Z -> workload_factor_of m == 0).
  { intros m Hm. rewrite workload_factor_of_formula. apply Q.max_l.
    apply Qle_shift_div_r; [reflexivity|]. rewrite Qmult_0_l.
    assert (inject_Z 8 <= inject_Z m) by (rewrite <- Zle_Qle; lia).
    change (inject_Z 8) with 8 in *. lra. }
  split; [|split].
  - intros Hrange. unfold candidate_score. rewrite Hl, Hl'.
    rewrite (Hwf n), (Hwf (n + 1)%Z) by lia.
    rewrite inject_Z_plus. change (inject_Z 1) with 1. field.
  - intros Hrange. unfold candidate_score. rewrite Hl, Hl'.
    rewrite (Hsat n), (Hsat (n + 1)%Z) by lia. reflexivity.
  - intros other Hne. unfold candidate_score, load_of, workloads'.
    now rewrite lookup_insert_ne by congruence.
Qed.

End CompleteRuns.

(** ** Counters and assigned tickets *)

Section Counters.
Import TicketAssignmentSystem Props Props2 Run.

Lemma assigned_count_app (id : string) (l1 l2 : list AgentAssignment) :
  assigned_count id (l1 ++ l2)
  = (assigned_count id l1 + assigned_count id l2)%Z.
Proof.
  unfold assigned_count. rewrite List.filter_app, length_app. lia.
Qed.

Lemma last_with_id_unique (agents : list Agent) (agent : Agent) :
  unique_ids agents -> In agent agents ->
  last_with_id agents (agent_id agent) = Some agent.
Proof.
  unfold unique_ids. induction agents as [|a agents IH]; [intros _ []|].
  cbn [map]. intros Hnd Hin. apply NoDup_cons in Hnd as [Hnotin Hnd].
  rewrite list_elem_of_In in Hnotin.
  rewrite last_with_id_cons. destruct Hin as [-> | Hin].
  - destruct (last_with_id agents (agent_id agent)) as [b|] eqn:E.
    + exfalso. apply Hnotin. unfold last_with_id in E.
      apply find_some in E. destruct E as [Hb Heq].
      apply String.eqb_eq in Heq. rewrite <- Heq.
      apply in_map. now apply in_rev.
    + now rewrite String.eqb_refl.
  - now rewrite (IH Hnd Hin).
Qed.

(** The invariant of the loop: every counter is its initial value plus the
    number of records assigned to its identifier so far. *)
Lemma counters_invariant (dataset : Dataset) (c : Config) :
  rtc step (start dataset) c ->
  forall s, c = Running s ->
  forall id,
    agent_workloads s !! id
    = (fun n => (n + assigned_count id (assignments s))%Z)
        <$> initial_workloads (agents dataset) !! id.
Proof.
  revert c.
  apply (rtc_ind_r
           (fun c =>
              forall s, c = Running s ->
              forall id,
                agent_workloads s !! id
                = (fun n => (n + assigned_count id (assignments s))%Z)
                    <$> initial_workloads (agents dataset) !! id)).
  - intros s [= <-] id. cbn [agent_workloads assignments].
    destruct (initial_workloads (agents dataset) !! id) as [n|];
      [|reflexivity].
    cbn. f_equal. unfold assigned_count. cbn. lia.
  - intros c1 c2 H1 H2 IH s' -> id. destruct c1 as [s | ags res | ags e];
      [|exfalso; now apply (terminal_no_step (Returned ags res) _ I H2)
       |exfalso; now apply (terminal_no_step (Raised ags e) _ I H2)].
    specialize (IH s eq_refl).
    destruct (step_running s s' H2) as (ticket & n & _ & _ & Ha & Hn & Hw).
    rewrite Hw, Ha, assigned_count_app.
    set (r := _assign_single_ticket ticket (caller_agents s)
                (agent_workloads s)) in *.
    unfold assigned_count at 2. cbn [List.filter].
    destruct (String.eqb_spec (assigned_agent_id r) id) as [E | E].
    + subst id. rewrite lookup_insert_eq. rewrite IH in Hn.
      destruct (initial_workloads (agents dataset) !! assigned_agent_id r)
        as [n0|]; [|discriminate Hn].
      cbn in Hn |- *. injection Hn as <-. f_equal. lia.
    + rewrite lookup_insert_ne by exact E. rewrite IH.
      destruct (initial_workloads (agents dataset) !! id) as [n0|];
        [|reflexivity].
      cbn. f_equal. lia.
Qed.

(** X8. At every point of a run the workload counter of an identifier is
    its initial value plus the number of records assigned to it so far;
    with pairwise distinct identifiers the counter of an agent is its
    [current_load] plus the number of tickets it has received. *)
Theorem counter_is_load_plus_assigned (dataset : Dataset) (s : State) :
  rtc step (start dataset) (Running s) ->
  (forall id,
     agent_workloads s !! id
     = (fun n => (n + assigned_count id (assignments s))%Z)
         <$> initial_workloads (agents dataset) !! id)
  /\ (unique_ids (agents dataset) ->
      forall agent,
        In agent (agents dataset) ->
        agent_workloads s !! agent_id agent
        = Some (current_load agent
                + assigned_count (agent_id agent) (assignments s))%Z).
Proof.
  intros H.
  pose proof (counters_invariant dataset _ H s eq_refl) as Hinv.
  split; [exact Hinv|]. intros Hu agent Hin.
  rewrite Hinv, initial_workloads_lookup.
  now rewrite (last_with_id_unique _ _ Hu Hin).
Qed.

End Counters.

(** ** The ranges of the scores of a record *)

Section Ranges.
Import TicketAssignmentSystem Props Props2.

(** A property of records that needs an invariant of the workload
    dictionary. *)
Lemma assign_loop_Forall_inv (I : gmap string Z -> Prop)
    (P : AgentAssignment -> Prop) (agents : list Agent) :
  (forall ticket workloads,
     I workloads -> P (_assign_single_ticket ticket agents workloads)) ->
  (forall workloads key n,
     I workloads -> workloads !! key = Some n ->
     I (<[key := (n + 1)%Z]> workloads)) ->
  forall pending workloads done result,
    I workloads -> Forall P done ->
    assign_loop agents pending workloads done = Returns result ->
    Forall P result.
Proof.
  intros HP HI pending.
  induction pending as [|ticket pending IH];
    intros workloads done result Hw Hd; cbn [assign_loop].
  - now intros [= <-].
  - destruct (increment workloads _) as [workloads' | e] eqn:E;
      [|discriminate].
    apply increment_Returns in E. destruct E as (n & Hn & ->).
    apply IH.
    + now apply HI.
    + apply Forall_app. split; [exact Hd|].
      constructor; [now apply HP | constructor].
Qed.

Lemma workload_factor_of_le_1 (load : Z) :
  (0 <= load)%Z -> workload_factor_of load <= 1.
Proof.
  intros H. rewrite workload_factor_of_formula.
  apply Q.max_lub; [discriminate|].
  apply Qle_shift_div_r; [reflexivity|].
  assert (inject_Z 0 <= inject_Z load) by (rewrite <- Zle_Qle; lia).
  change (inject_Z 0) with 0 in *. lra.
Qed.

Lemma experience_bonus_of_le_1 (agent : Agent) : experience_bonus_of agent <= 1.
Proof.
  unfold experience_bonus_of.
  pose proof (Q.le_min_r (inject_Z (experience_level agent) / 15) 1.0).
  lra.
Qed.

Lemma priority_multiplier_le_1 (l : PriorityLevel) :
  _get_priority_multiplier l <= 1.
Proof. destruct l; discriminate. Qed.

Lemma load_of_nonneg (workloads : gmap string Z) (agent : Agent) :
  nonnegative_counters workloads -> (0 <= load_of workloads agent)%Z.
Proof.
  intros H. unfold load_of.
  destruct (workloads !! agent_id agent) as [n|] eqn:E; cbn; [|lia].
  now apply (H _ _ E).
Qed.

Lemma initial_workloads_nonneg (agents : list Agent) :
  Forall valid_agent agents -> nonnegative_counters (initial_workloads agents).
Proof.
  intros Hvalid key n. rewrite initial_workloads_lookup.
  unfold last_with_id.
  destruct (find _ (rev agents)) as [a|] eqn:E; [|discriminate].
  apply find_some in E. destruct E as [Hin _]. apply in_rev in Hin.
  rewrite List.Forall_forall in Hvalid.
  destruct (Hvalid a Hin) as (_ & _ & Hload).
  cbn. intros [= <-]. exact Hload.
Qed.

Lemma analyze_priority_score_nonneg (title description : string) :
  0 <= PriorityAnalyzer.priority_score
         (PriorityAnalyzer.analyze_priority title description).
Proof.
  rewrite analyze_priority_score. apply final_scores_nonneg.
Qed.

Lemma single_record_ranges (ticket : Ticket) (agents : list Agent)
    (workloads : gmap string Z) :
  Forall valid_agent agents -> nonnegative_counters workloads ->
  let r := _assign_single_ticket ticket agents workloads in
  0 <= priority_score r
  /\ 0 <= skill_match_score r <= 1
  /\ 0 <= workload_factor r <= 1
  /\ -1 <= final_score r <= 1.
Proof.
  intros Hvalid Hw r. unfold r. rewrite assign_single_ticket_unfold.
  cbn [priority_score skill_match_score workload_factor final_score].
  split; [apply analyze_priority_score_nonneg|].
  destruct (best_of_found ticket workloads agents)
    as [[Hb _] | (i & a & Hi & Ha & Hb & Hgt & _)]; rewrite Hb.
  - cbn. repeat split; discriminate.
  - cbn [best_skill_score best_workload_factor best_score].
    assert (Hin : In a agents)
      by (apply list_elem_of_In, list_elem_of_lookup; eauto).
    rewrite List.Forall_forall in Hvalid.
    destruct (Hvalid a Hin) as (Hskills & Hexp & _).
    apply valid_levels_weaken in Hskills.
    pose proof (calculate_skill_match_nonneg ticket a Hskills) as [H1 H1'].
    pose proof (workload_factor_of_nonneg (load_of workloads a)) as H2.
    pose proof (workload_factor_of_le_1 _ (load_of_nonneg _ a Hw)) as H2'.
    pose proof (experience_bonus_of_le_1 a) as H3.
    pose proof (priority_multiplier_le_1
                  (PriorityAnalyzer.priority_level
                     (PriorityAnalyzer.analyze_priority (title ticket)
                        (description ticket)))) as H4.
    repeat split; try assumption; [lra|].
    unfold candidate_score. lra.
Qed.

(** X9. For agents in the ranges of the data model every record of a run
    has a non-negative priority score, a skill score and a workload factor
    in [0,1], and a final score in [-1,1]. *)
Theorem record_score_ranges (dataset : Dataset)
    (result : list AgentAssignment) :
  Forall valid_agent (agents dataset) ->
  assign_tickets dataset = Returns result ->
  Forall
    (fun r =>
       0 <= priority_score r
       /\ 0 <= skill_match_score r <= 1
       /\ 0 <= workload_factor r <= 1
       /\ -1 <= final_score r <= 1)
    result.
Proof.
  intros Hvalid. unfold assign_tickets.
  apply (assign_loop_Forall_inv nonnegative_counters).
  - intros ticket workloads Hw. now apply single_record_ranges.
  - intros workloads key n Hw Hn key' n'.
    destruct (decide (key = key')) as [<- | Hne].
    + rewrite lookup_insert_eq. intros [= <-].
      specialize (Hw _ _ Hn). lia.
    + rewrite lookup_insert_ne by exact Hne. apply Hw.
  - now apply initial_workloads_nonneg.
  - constructor.
Qed.

End Ranges.

(** ** [get_priority_statistics] *)

Section Statistics.
Import TicketAssignmentSystem Props Props2 Reports.
Variable format_1f : Q -> string.

(** Every level name is a key of the counts: the increment never
    raises. *)
Lemma dict_increment_counts (count : PriorityLevel -> Z)
    (level : PriorityLevel) :
  dict_increment (counts_dict count) (level_name level)
  = Returns
      (counts_dict
         (fun l => if level_eqb level l then (count l + 1)%Z else count l)).
Proof. destruct level; reflexivity. Qed.

Lemma tickets_at_cons (level : PriorityLevel) (ticket : Ticket)
    (tickets : list Ticket) :
  tickets_at level (ticket :: tickets)
  = ((if level_eqb level
            (PriorityAnalyzer.priority_level
               (PriorityAnalyzer.analyze_priority (title ticket)
                  (description ticket)))
      then 1 else 0)
     + tickets_at level tickets)%Z.
Proof.
  unfold tickets_at. cbn [List.filter].
  destruct (level_eqb level _); cbn [length]; lia.
Qed.

Lemma counts_dict_ext (f g : PriorityLevel -> Z) :
  (forall l, f l = g l) -> counts_dict f = counts_dict g.
Proof. intros H. unfold counts_dict. cbn. now rewrite !H. Qed.

Lemma statistics_loop_spec (tickets : list Ticket)
    (count : PriorityLevel -> Z) (details : list DetailedResult) :
  statistics_loop format_1f tickets (counts_dict count) details
  = Returns
      (counts_dict (fun l => (count l + tickets_at l tickets)%Z),
       details ++ map (detail_of format_1f) tickets).
Proof.
  revert count details.
  induction tickets as [|ticket tickets IH]; intros count details.
  - cbn [statistics_loop map]. rewrite app_nil_r. f_equal. f_equal.
    apply counts_dict_ext. intros l. unfold tickets_at. cbn. lia.
  - cbn [statistics_loop]. rewrite dict_increment_counts, IH.
    cbn [map]. rewrite <- app_assoc. cbn [app]. f_equal. f_equal.
    apply counts_dict_ext. intros l. rewrite tickets_at_cons.
    destruct (level_eqb _ l) eqn:E.
    + apply level_eqb_eq in E. rewrite <- E.
      assert (Hr : forall a, level_eqb a a = true) by now intros [].
      rewrite Hr. lia.
    + assert (E' : level_eqb l
                     (PriorityAnalyzer.priority_level
                        (PriorityAnalyzer.analyze_priority (title ticket)
                           (description ticket))) = false).
      { destruct (level_eqb l _) eqn:E2; [|reflexivity].
        apply level_eqb_eq in E2. subst l.
        assert (Hr : forall a, level_eqb a a = true) by now intros [].
        now rewrite Hr in E. }
      rewrite E'. lia.
Qed.

(** Every ticket is counted at exactly one level. *)
Lemma tickets_at_total (tickets : list Ticket) :
  (tickets_at CRITICAL tickets + tickets_at HIGH tickets
   + tickets_at MEDIUM tickets + tickets_at LOW tickets)%Z
  = Z.of_nat (length tickets).
Proof.
  induction tickets as [|ticket tickets IH]; [reflexivity|].
  rewrite !tickets_at_cons. cbn [length]. rewrite Nat2Z.inj_succ, <- IH.
  destruct (PriorityAnalyzer.priority_level _);
    cbn [level_eqb level_value Z.eqb Pos.eqb]; lia.
Qed.

(** X10. [get_priority_statistics] never raises. The distribution counts,
    for every level name in enumeration order, the tickets classified at
    that level; the counts add up to the number of tickets; there is one
    detailed result per ticket, in input order. For an empty list every
    percentage is 0 (no division happens); otherwise a percentage is the
    count divided by the total times 100, and the percentages add up to
    100. *)
Theorem get_priority_statistics_counts (tickets : list Ticket) :
  exists stats,
    get_priority_statistics format_1f tickets = Returns stats
    /\ total_tickets stats = Z.of_nat (length tickets)
    /\ priority_distribution stats = counts_dict (fun l => tickets_at l tickets)
    /\ Z.of_nat (length tickets)
       = fold_right Z.add 0%Z (map snd (priority_distribution stats))
    /\ detailed_results stats = map (detail_of format_1f) tickets
    /\ (tickets = [] ->
        priority_percentages stats
        = map (fun l => (level_name l, 0)) all_levels)
    /\ (tickets <> [] ->
        priority_percentages stats
        = map (fun l =>
                 (level_name l,
                  inject_Z (tickets_at l tickets)
                  / inject_Z (Z.of_nat (length tickets)) * 100))
            all_levels
        /\ Qsum (map snd (priority_percentages stats)) == 100).
Proof.
  unfold get_priority_statistics.
  change zero_counts with (counts_dict (fun _ => 0%Z)).
  rewrite statistics_loop_spec. cbn [app].
  eexists. split; [reflexivity|].
  cbn [total_tickets priority_distribution priority_percentages
       detailed_results].
  split; [reflexivity|]. split; [reflexivity|]. split.
  - rewrite <- tickets_at_total. cbn. lia.
  - split; [reflexivity|]. split.
    + intros ->. reflexivity.
    + intros Hne.
      assert (Hpos : (Z.of_nat (length tickets) >? 0)%Z = true).
      { rewrite Z.gtb_ltb. apply Z.ltb_lt.
        destruct tickets; [congruence | cbn; lia]. }
      unfold counts_dict, percentage. cbn [map all_levels fst snd].
      rewrite Hpos. split; [reflexivity|].
      unfold Qsum. cbn [fold_right].
      rewrite <- tickets_at_total, !inject_Z_plus.
      assert (H0 : ~ inject_Z (tickets_at CRITICAL tickets)
                     + inject_Z (tickets_at HIGH tickets)
                     + inject_Z (tickets_at MEDIUM tickets)
                     + inject_Z (tickets_at LOW tickets) == 0).
      { rewrite <- !inject_Z_plus, tickets_at_total.
        change 0 with (inject_Z 0). rewrite inject_Z_injective.
        destruct tickets; [congruence | cbn; lia]. }
      cbn [Z.add]. field. exact H0.
Qed.

End Statistics.

(** ** The tallies of the report *)

Section Tally.
Import TicketAssignmentSystem Props Props2 Reports.

Lemma occurrences_cons (key k : string) (keys : list string) :
  occurrences key (k :: keys)
  = ((if String.eqb key k then 1 else 0) + occurrences key keys)%Z.
Proof.
  unfold occurrences. cbn [List.filter].
  destruct (String.eqb key k); cbn [length]; lia.
Qed.

Lemma occurrences_nonneg (key : string) (keys : list string) :
  (0 <= occurrences key keys)%Z.
Proof. unfold occurrences. lia. Qed.

Lemma occurrences_zero (key : string) (keys : list string) :
  occurrences key keys = 0%Z <-> ~ In key keys.
Proof.
  induction keys as [|k keys IH]; [cbn; tauto|].
  rewrite occurrences_cons. pose proof (occurrences_nonneg key keys).
  destruct (String.eqb_spec key k) as [-> | Hne].
  - split; [lia|]. intros Hn. exfalso. apply Hn. now left.
  - rewrite Z.add_0_l, IH. cbn. split.
    + intros Hn [E | Hin]; [congruence | contradiction].
    + intros Hn Hin. apply Hn. now right.
Qed.

(** The tally of a key grows by its occurrences. *)
Lemma tally_fold_lookup (keys : list string) (counts : gmap string Z)
    (key : string) :
  fold_left tally_step keys counts !! key
  = if (occurrences key keys =? 0)%Z then counts !! key
    else Some (default 0%Z (counts !! key) + occurrences key keys)%Z.
Proof.
  revert counts. induction keys as [|k keys IH]; intros counts.
  - reflexivity.
  - cbn [fold_left]. rewrite IH, occurrences_cons.
    pose proof (occurrences_nonneg key keys) as Hnn. unfold tally_step.
    destruct (String.eqb_spec key k) as [<- | Hne].
    + rewrite lookup_insert_eq. cbn [default].
      destruct (Z.eqb_spec (occurrences key keys) 0) as [E | E].
      * rewrite E, !Z.add_0_r. reflexivity.
      * destruct (Z.eqb_spec (1 + occurrences key keys) 0);
          [exfalso; lia|].
        unfold id. f_equal. lia.
    + rewrite lookup_insert_ne by congruence. now rewrite Z.add_0_l.
Qed.

Lemma tally_lookup (keys : list string) (key : string) :
  tally keys !! key
  = if (occurrences key keys =? 0)%Z then None
    else Some (occurrences key keys).
Proof.
  unfold tally. rewrite tally_fold_lookup, lookup_empty. cbn [default].
  now rewrite Z.add_0_l.
Qed.

Lemma total_count_insert_fresh (counts : gmap string Z) (key : string)
    (v : Z) :
  counts !! key = None ->
  total_count (<[key := v]> counts) = (v + total_count counts)%Z.
Proof.
  intros H. unfold total_count.
  rewrite map_fold_insert_L; [reflexivity | | exact H].
  intros. lia.
Qed.

Lemma total_count_insert (counts : gmap string Z) (key : string) (v : Z) :
  total_count (<[key := v]> counts)
  = (total_count counts - default 0%Z (counts !! key) + v)%Z.
Proof.
  destruct (counts !! key) as [old|] eqn:E; cbn [default].
  - rewrite <- (insert_delete_id counts key old E) at 2.
    rewrite <- (insert_delete_eq counts).
    rewrite !total_count_insert_fresh by apply lookup_delete_eq.
    unfold id. lia.
  - rewrite total_count_insert_fresh by exact E. lia.
Qed.

Lemma tally_fold_total (keys : list string) (counts : gmap string Z) :
  total_count (fold_left tally_step keys counts)
  = (total_count counts + Z.of_nat (length keys))%Z.
Proof.
  revert counts. induction keys as [|k keys IH]; intros counts.
  - cbn. lia.
  - cbn [fold_left length]. rewrite IH. unfold tally_step.
    rewrite total_count_insert. lia.
Qed.

Lemma assigned_count_occurrences (id : string)
    (assignments : list AgentAssignment) :
  occurrences id (map assigned_agent_id assignments)
  = assigned_count id assignments.
Proof.
  unfold occurrences, assigned_count. f_equal.
  induction assignments as [|r assignments IH]; [reflexivity|].
  cbn [map List.filter]. rewrite String.eqb_sym.
  destruct (String.eqb (assigned_agent_id r) id); cbn [length]; lia.
Qed.

(** X11. In the summary of the detailed report the entry of an agent in
    the workload distribution is the number of records assigned to it,
    and an agent without a record has no entry; the entries add up to the
    number of records. So for a run over a non-empty agent list the
    tickets per agent add up to the number of tickets. *)
Theorem report_summary_conservation (assignments : list AgentAssignment) :
  let summary := report_summary assignments in
  summary_total_tickets summary = Z.of_nat (length assignments)
  /\ (forall id,
        agent_workload_distribution summary !! id
        = if (assigned_count id assignments =? 0)%Z then None
          else Some (assigned_count id assignments))
  /\ total_count (agent_workload_distribution summary)
     = Z.of_nat (length assignments)
  /\ total_count (summary_priority_distribution summary)
     = Z.of_nat (length assignments)
  /\ (forall dataset,
        agents dataset <> [] ->
        assign_tickets dataset = Returns assignments ->
        total_count (agent_workload_distribution summary)
        = Z.of_nat (length (tickets dataset))).
Proof.
  intros summary. unfold summary, report_summary.
  cbn [summary_total_tickets agent_workload_distribution
       summary_priority_distribution].
  assert (Htotal : forall keys : list string,
             total_count (tally keys) = Z.of_nat (length keys)).
  { intros keys. unfold tally. rewrite tally_fold_total.
    unfold total_count. rewrite map_fold_empty. lia. }
  split; [reflexivity|]. split; [|split; [|split]].
  - intros id. rewrite tally_lookup. now rewrite assigned_count_occurrences.
  - now rewrite Htotal, length_map.
  - now rewrite Htotal, length_map.
  - intros dataset Hne Hrun. rewrite Htotal, length_map.
    destruct (assign_tickets_returns dataset Hne) as (result & Hr & Hlen).
    rewrite Hrun in Hr. injection Hr as <-. now rewrite Hlen.
Qed.

End Tally.

(** ** The sorted order is unique *)

Section SortedClasses.
Import TicketAssignmentSystem Props Props2.
Context {A : Type}.
Variable key : A -> Z * Q.

Let before (a b : A) : Prop := key_le (key a) (key b).






End SortedClasses.

Section SortUnique.
Import TicketAssignmentSystem Props Props2.


End SortUnique.

(** ** The level is decided by the keyword sums *)

Section LevelBySums.
Import PriorityAnalyzer Props Props2.

Lemma level_value_inj (a b : PriorityLevel) :
  level_value a = level_value b -> a = b.
Proof. destruct a, b; cbn; intros H; congruence || discriminate H. Qed.

(** X13. The impact multiplier scales the score but never changes the
    level: a level whose keyword weight sum is positive, not exceeded by
    the sum of any level and strictly above the sums of the earlier
    levels is the level of the result, whatever impact phrases occur. In
    particular a ticket with a CRITICAL keyword and no level with a higher
    sum is classified CRITICAL. *)
Theorem level_decided_by_keyword_sums (title description : string)
    (level : PriorityLevel) :
  let text := full_text title description in
  let r := analyze_priority title description in
  0 < keyword_weight_sum text level ->
  (forall l, keyword_weight_sum text l <= keyword_weight_sum text level) ->
  (forall l, earlier l level ->
             keyword_weight_sum text l < keyword_weight_sum text level) ->
  priority_level r = level
  /\ priority_score r
     == keyword_weight_sum text level * impact_multiplier text.
Proof.
  intros text r Hpos Hmax Hearly.
  pose proof (final_scores_product text) as Hfs.
  pose proof (impact_multiplier_ge_1 text) as Hmul.
  pose proof (winning_priority_spec (final_scores text)) as [_ Hwin].
  pose proof (max_score_ge (final_scores text)) as Hge.
  destruct (max_score_attained (final_scores text)) as [lm Hlm].
  assert (Hscale : forall a b,
             keyword_weight_sum text a <= keyword_weight_sum text b ->
             final_scores text a <= final_scores text b).
  { intros a b H. rewrite !Hfs. apply Qmult_le_compat_r; [exact H | lra]. }
  assert (Hscale' : forall a b,
             keyword_weight_sum text a < keyword_weight_sum text b ->
             final_scores text a < final_scores text b).
  { intros a b H. rewrite !Hfs. apply Qmult_lt_compat_r; [lra | exact H]. }
  assert (Hm : max_score (final_scores text) == final_scores text level).
  { apply Qle_antisym; [|apply Hge]. rewrite Hlm. apply Hscale, Hmax. }
  assert (Hp : 0 < final_scores text level).
  { rewrite Hfs. apply Qmult_lt_0_compat; [exact Hpos | lra]. }
  destruct Hwin as [Hw Hfirst].
  { intros E. rewrite E in Hm. lra. }
  assert (Hlevel : priority_level r = level).
  { unfold r. rewrite analyze_priority_level. fold text.
    set (w := _determine_winning_priority (final_scores text)) in *.
    destruct (Z.lt_trichotomy (level_value w) (level_value level))
      as [Hlt | [Heq | Hgt]].
    - exfalso. specialize (Hearly w Hlt). apply Hscale' in Hearly. lra.
    - now apply level_value_inj.
    - exfalso. apply (Hfirst level Hgt). now symmetry. }
  split; [exact Hlevel|].
  unfold r. rewrite analyze_priority_score, <- analyze_priority_level.
  fold r. rewrite Hlevel. apply Hfs.
Qed.

End LevelBySums.

(** ** No backtracking *)

Section Prefix.
Import TicketAssignmentSystem Props Props2.

(** The loop over a concatenation is the loop over the first part
    followed by the loop over the second part. *)
Lemma assign_loop_app (agents : list Agent) (p1 p2 : list Ticket)
    (workloads : gmap string Z) (done result : list AgentAssignment) :
  assign_loop agents (p1 ++ p2) workloads done = Returns result ->
  exists r1 workloads1,
    assign_loop agents p1 workloads done = Returns r1
    /\ assign_loop agents p2 workloads1 r1 = Returns result.
Proof.
  revert workloads done.
  induction p1 as [|ticket p1 IH]; intros workloads done;
    cbn [app assign_loop].
  - intros H. exists done, workloads. auto.
  - destruct (increment workloads _) as [workloads' | e]; [|discriminate].
    apply IH.
Qed.

Lemma assign_loop_extends (agents : list Agent) (pending : list Ticket)
    (workloads : gmap string Z) (done result : list AgentAssignment) :
  assign_loop agents pending workloads done = Returns result ->
  exists rest, result = done ++ rest /\ length rest = length pending.
Proof.
  revert workloads done.
  induction pending as [|t pending IH]; intros workloads done;
    cbn [assign_loop].
  - intros [= <-]. exists []. now rewrite app_nil_r.
  - destruct (increment workloads _) as [workloads' | e]; [|discriminate].
    intros H. apply IH in H. destruct H as (rest & -> & Hl).
    eexists. rewrite <- app_assoc. split; [reflexivity|].
    cbn [app length]. now rewrite Hl.
Qed.

(** X14. No backtracking: the records produced for a prefix of the queue
    are not changed by the tickets behind it. If the loop over [p1 ++ p2]
    returns, the loop over [p1] returns a prefix of its records. *)
Theorem earlier_records_are_final (agents : list Agent)
    (p1 p2 : list Ticket) (workloads : gmap string Z)
    (result : list AgentAssignment) :
  assign_loop agents (p1 ++ p2) workloads [] = Returns result ->
  exists r1 r2,
    assign_loop agents p1 workloads [] = Returns r1
    /\ result = r1 ++ r2
    /\ length r1 = length p1
    /\ length r2 = length p2.
Proof.
  intros H. apply assign_loop_app in H.
  destruct H as (r1 & workloads1 & E1 & E2).
  destruct (assign_loop_extends _ _ _ _ _ E1) as (rest1 & -> & Hl1).
  destruct (assign_loop_extends _ _ _ _ _ E2) as (rest2 & -> & Hl2).
  exists rest1, rest2. cbn [app] in *. auto.
Qed.

End Prefix.

(** ** The further theorems on sample data *)

Section MoreSamples.
Import TicketAssignmentSystem Props Props2 Run Examples.

Lemma classification_ignores_case_witness :
  Text.lower (title shouted_ticket) = Text.lower (title printer_ticket)
  /\ Text.lower (description shouted_ticket)
     = Text.lower (description printer_ticket)
  /\ PriorityAnalyzer.analyze_priority (title shouted_ticket)
       (description shouted_ticket)
     = PriorityAnalyzer.analyze_priority (title printer_ticket)
         (description printer_ticket).
Proof.
  assert (H1 : Text.lower (title shouted_ticket)
               = Text.lower (title printer_ticket)) by reflexivity.
  assert (H2 : Text.lower (description shouted_ticket)
               = Text.lower (description printer_ticket)) by reflexivity.
  split; [exact H1|]. split; [exact H2|].
  exact (proj1 (classification_ignores_case shouted_ticket printer_ticket
                  H1 H2)).
Defined.


Lemma none_available_run_witness :
  none_available [carol]
  /\ exists result,
       assign_tickets {| agents := [carol]; tickets := [printer_ticket] |}
       = Returns result
       /\ length result = 1%nat.
Proof.
  assert (H : none_available [carol]) by (repeat constructor).
  split; [exact H|].
  destruct (none_available_run carol [] [printer_ticket] H)
    as (result & Hr & Hlen & _).
  exists result. auto.
Defined.

Lemma commit_lowers_score_witness :
  initial_workloads [alice] !! agent_id alice = Some 0%Z
  /\ forall other,
       agent_id other <> agent_id alice ->
       candidate_score printer_ticket
         (PriorityAnalyzer.analyze_priority (title printer_ticket)
            (description printer_ticket))
         (<[agent_id alice := (0 + 1)%Z]> (initial_workloads [alice])) other
       = candidate_score printer_ticket
           (PriorityAnalyzer.analyze_priority (title printer_ticket)
              (description printer_ticket))
           (initial_workloads [alice]) other.
Proof.
  assert (H : initial_workloads [alice] !! agent_id alice = Some 0%Z)
    by reflexivity.
  split; [exact H|].
  apply (commit_lowers_score printer_ticket _ _ alice 0%Z H).
Defined.

Lemma front_desk_one_step :
  rtc step (start front_desk) (Running front_desk_after_one).
Proof.
  apply rtc_once.
  apply (step_commit (agents front_desk) printer_ticket []
           (initial_workloads (agents front_desk))
           (<["agent_001" := 1%Z]> (initial_workloads (agents front_desk)))
           []).
  vm_compute. reflexivity.
Defined.

Lemma counter_is_load_plus_assigned_witness :
  rtc step (start front_desk) (Running front_desk_after_one)
  /\ forall id,
       agent_workloads front_desk_after_one !! id
       = (fun n =>
            (n + assigned_count id (assignments front_desk_after_one))%Z)
           <$> initial_workloads (agents front_desk) !! id.
Proof.
  split; [exact front_desk_one_step|].
  apply (counter_is_load_plus_assigned front_desk front_desk_after_one
           front_desk_one_step).
Defined.

Lemma front_desk_valid : Forall valid_agent (agents front_desk).
Proof.
  unfold valid_agent. repeat (constructor || split); cbn; lia.
Defined.

Lemma record_score_ranges_witness :
  Forall valid_agent (agents front_desk)
  /\ assign_tickets front_desk = Returns (records (assign_tickets front_desk))
  /\ Forall
       (fun r =>
          0 <= priority_score r
          /\ 0 <= skill_match_score r <= 1
          /\ 0 <= workload_factor r <= 1
          /\ -1 <= final_score r <= 1)
       (records (assign_tickets front_desk)).
Proof.
  assert (H : assign_tickets front_desk
              = Returns (records (assign_tickets front_desk)))
    by (vm_compute; reflexivity).
  split; [exact front_desk_valid|]. split; [exact H|].
  exact (record_score_ranges front_desk _ front_desk_valid H).
Defined.


End MoreSamples.

Section MoreSamples2.
Import TicketAssignmentSystem Props Props2 Examples.

Lemma level_decided_by_keyword_sums_witness :
  0 < keyword_weight_sum (PriorityAnalyzer.full_text "Server down" "")
        CRITICAL
  /\ PriorityAnalyzer.priority_level
       (PriorityAnalyzer.analyze_priority "Server down" "")
     = CRITICAL.
Proof.
  assert (H1 : 0 < keyword_weight_sum
                     (PriorityAnalyzer.full_text "Server down" "") CRITICAL)
    by (vm_compute; reflexivity).
  assert (H2 : forall l,
             keyword_weight_sum
               (PriorityAnalyzer.full_text "Server down" "") l
             <= keyword_weight_sum
                  (PriorityAnalyzer.full_text "Server down" "") CRITICAL)
    by (intros []; vm_compute; discriminate).
  assert (H3 : forall l,
             earlier l CRITICAL ->
             keyword_weight_sum
               (PriorityAnalyzer.full_text "Server down" "") l
             < keyword_weight_sum
                 (PriorityAnalyzer.full_text "Server down" "") CRITICAL)
    by (intros [] H; vm_compute in H; discriminate H).
  split; [exact H1|].
  exact (proj1 (level_decided_by_keyword_sums "Server down" "" CRITICAL
                  H1 H2 H3)).
Defined.

Lemma earlier_records_are_final_witness :
  assign_loop [alice] ([printer_ticket] ++ [printer_ticket])
    (initial_workloads [alice]) []
  = Returns
      (records
         (assign_loop [alice] ([printer_ticket] ++ [printer_ticket])
            (initial_workloads [alice]) []))
  /\ exists r1 r2,
       assign_loop [alice] [printer_ticket] (initial_workloads [alice]) []
       = Returns r1
       /\ records
            (assign_loop [alice] ([printer_ticket] ++ [printer_ticket])
               (initial_workloads [alice]) [])
          = r1 ++ r2.
Proof.
  assert (H : assign_loop [alice] ([printer_ticket] ++ [printer_ticket])
                (initial_workloads [alice]) []
              = Returns
                  (records
                     (assign_loop [alice]
                        ([printer_ticket] ++ [printer_ticket])
                        (initial_workloads [alice]) [])))
    by (vm_compute; reflexivity).
  split; [exact H|].
  destruct (earlier_records_are_final [alice] [printer_ticket]
              [printer_ticket] (initial_workloads [alice]) _ H)
    as (r1 & r2 & H1 & H2 & _).
  exists r1, r2. auto.
Defined.

End MoreSamples2.
